(** * Verification of the GFA ingredient-scanning pipeline

    Shallow embedding of [src/safety-algorithm.js] and of the OCR pipeline
    of [src/enhanced-ocr.js]: the functions declared at lines 9-1329 and
    the minimal OCR module that redeclares some of them (lines 1345-1437).
    JavaScript strings are modelled as lists of ASCII characters, numbers
    of the pixel and confidence computations as rationals [Q] (with the
    double-precision rounding written out for the size [getImageData] of
    [preprocessImage] scales an image to), and thrown JavaScript exceptions as an explicit result type.
    In a classic script a later function declaration of the same name
    replaces the earlier one, so the redeclared functions are modelled
    twice: as written, and as the script's global bindings. *)

From Stdlib Require Import Ascii String List Bool Arith Lia ZArith QArith Qminmax Qround Qabs.
Import ListNotations.
Open Scope nat_scope.

(* ------------------------------------------------------------------ *)
(** ** JavaScript strings *)

Module JsStr.

Definition str := list ascii.

(** String literals of the source. *)
Definition s2l (s : string) : str := list_ascii_of_string s.

(** [\s] restricted to ASCII: tab, LF, VT, FF, CR and space. *)
Definition is_ws (c : ascii) : bool :=
  let n := nat_of_ascii c in
  (n =? 32) || ((9 <=? n) && (n <=? 13)).

Definition is_upper (c : ascii) : bool :=
  let n := nat_of_ascii c in (65 <=? n) && (n <=? 90).

Definition is_lower (c : ascii) : bool :=
  let n := nat_of_ascii c in (97 <=? n) && (n <=? 122).

Definition is_digit (c : ascii) : bool :=
  let n := nat_of_ascii c in (48 <=? n) && (n <=? 57).

(** [\w]: [A-Za-z0-9_]. *)
Definition is_word (c : ascii) : bool :=
  is_upper c || is_lower c || is_digit c || (nat_of_ascii c =? 95).

(** [String.prototype.toLowerCase] / [toUpperCase] on one ASCII character. *)
Definition lower_char (c : ascii) : ascii :=
  if is_upper c then ascii_of_nat (nat_of_ascii c + 32) else c.

Definition upper_char (c : ascii) : ascii :=
  if is_lower c then ascii_of_nat (nat_of_ascii c - 32) else c.

Definition toLowerCase (s : str) : str := map lower_char s.

(** [String.prototype.trim]. *)
Fixpoint drop_ws (s : str) : str :=
  match s with
  | [] => []
  | c :: s' => if is_ws c then drop_ws s' else s
  end.

Definition trim (s : str) : str := rev (drop_ws (rev (drop_ws s))).

(** [String.prototype.startsWith] on lists. *)
Fixpoint prefixb (p s : str) : bool :=
  match p, s with
  | [], _ => true
  | c :: p', d :: s' => Ascii.eqb c d && prefixb p' s'
  | _ :: _, [] => false
  end.

(** [String.prototype.includes]. *)
Fixpoint includes (s w : str) : bool :=
  prefixb w s || match s with [] => false | _ :: s' => includes s' w end.

(** [s.split(/\s+/)]: the maximal runs of non-white-space characters,
    with an empty first (last) piece when [s] starts (ends) with white
    space. [prev_ws] records that the previous character was white space. *)
Fixpoint split_ws_aux (s cur : str) (prev_ws : bool) : list str :=
  match s with
  | [] => [rev cur]
  | c :: s' =>
      if is_ws c then
        if prev_ws then split_ws_aux s' cur true
        else rev cur :: split_ws_aux s' [] true
      else split_ws_aux s' (c :: cur) false
  end.

Definition split_ws (s : str) : list str := split_ws_aux s [] false.

(** JavaScript truthiness of a string. *)
Definition truthy (s : str) : bool :=
  match s with [] => false | _ => true end.

End JsStr.

Import JsStr.

(* ------------------------------------------------------------------ *)
(** ** [src/safety-algorithm.js] *)

Module Safety.

Record flagged := { name : str; confidence : Q }.

(** The object [data]: [flagged_ingredients] may be absent ([None]). *)
Record data := {
  is_gluten_free : bool;
  message : str;
  flagged_ingredients : option (list flagged)
}.

Definition msg_unsafe : str :=
  s2l "Potentially unsafe: Contains suspicious ingredients.".
Definition msg_caution : str :=
  s2l "Exercise caution: Some ingredients need verification.".
Definition msg_cross : str :=
  s2l " However, always check for cross-contamination risks.".

(** [i.confidence > 0.5] *)
Definition over_half (i : flagged) : bool :=
  negb (Qle_bool (confidence i) (1 # 2)%Q).

Definition analyzeIngredientsForSafety (d : data) : data :=
  let d1 :=
    match flagged_ingredients d with
    | Some l =>
        if 0 <? length l then
          if existsb over_half l then
            {| is_gluten_free := false; message := msg_unsafe;
               flagged_ingredients := flagged_ingredients d |}
          else
            {| is_gluten_free := is_gluten_free d; message := msg_caution;
               flagged_ingredients := flagged_ingredients d |}
        else d
    | None => d
    end in
  if is_gluten_free d1 then
    {| is_gluten_free := is_gluten_free d1; message := message d1 ++ msg_cross;
       flagged_ingredients := flagged_ingredients d1 |}
  else d1.

End Safety.

(* ------------------------------------------------------------------ *)
(** ** Result fusion: [combineOcrResults] (enhanced-ocr.js, 280-313) *)

Module Fusion.

(** A recognition result [{text, confidence}]; a missing [text] is the
    empty string, which is falsy like [undefined]. *)
Record result := { text : str; confidence : Q }.

Definition str_eqb (a b : str) : bool :=
  if list_eq_dec ascii_dec a b then true else false.

(** [Set.prototype.add]: insertion order, no duplicates. *)
Definition set_add (s : list str) (w : str) : list str :=
  if existsb (str_eqb w) s then s else s ++ [w].

(** Loop 1: [if (result.text && result.text.length > maxLength)]. *)
Definition select_step (acc : str * nat) (r : result) : str * nat :=
  let '(b, m) := acc in
  if truthy (text r) && (m <? length (text r))
  then (text r, length (text r)) else acc.

Definition select_base (results : list result) : str :=
  fst (fold_left select_step results ([], 0)).

(** [result.text.split(/\s+/).map(w => w.trim().toLowerCase())
     .filter(w => w.length > 2)] *)
Definition words_of (t : str) : list str :=
  filter (fun w => 2 <? length w)
    (map (fun w => toLowerCase (trim w)) (split_ws t)).

(** Loop 2: [if (!result.text) continue; ... allWords.add(word)]. *)
Definition collect_step (acc : list str) (r : result) : list str :=
  if truthy (text r) then fold_left set_add (words_of (text r)) acc else acc.

Definition all_words (results : list result) : list str :=
  fold_left collect_step results [].

(** Loop 3: [if (!baseText.toLowerCase().includes(word.toLowerCase()))
     baseText += " " + word]. *)
Definition append_step (b w : str) : str :=
  if includes (toLowerCase b) (toLowerCase w) then b else b ++ s2l " " ++ w.

Definition combineOcrResults (results : list result) : str :=
  fold_left append_step (all_words results) (select_base results).

End Fusion.

(* ------------------------------------------------------------------ *)
(** ** JavaScript regular expressions

    A backtracking matcher following the ECMAScript pattern semantics
    (continuation-passing matchers, greedy and lazy quantifiers with the
    empty-iteration check, captures, lookahead, [\b], [^], [$] without the
    [m] flag), restricted to ASCII. The fuel only bounds the recursion
    depth; the bound used below exceeds every depth reached on the inputs
    evaluated in this file. *)

Module Regex.

Inductive cls_item :=
| CRange (lo hi : ascii)
| CChar (c : ascii)
| CDigit
| CWord
| CSpace.

Inductive re :=
| Eps
| Chr (c : ascii)
| Cls (neg : bool) (items : list cls_item)
| Dot
| Seq (r1 r2 : re)
| Alt (r1 r2 : re)
| Star (greedy : bool) (r : re)
| Group (n : nat) (r : re)
| Bol
| Eol
| WordB
| Ahead (r : re).

Record flags := { icase : bool; dotall : bool; global : bool }.

Definition caps := list (nat * (nat * nat)).

(** Canonicalize of the [i] flag (non-unicode): upper case. *)
Definition char_eq (fl : flags) (a b : ascii) : bool :=
  if icase fl then Ascii.eqb (upper_char a) (upper_char b) else Ascii.eqb a b.

Definition item_match (c : ascii) (it : cls_item) : bool :=
  match it with
  | CRange lo hi => (nat_of_ascii lo <=? nat_of_ascii c) && (nat_of_ascii c <=? nat_of_ascii hi)
  | CChar d => Ascii.eqb c d
  | CDigit => is_digit c
  | CWord => is_word c
  | CSpace => is_ws c
  end.

(** A class matches [c] when some member canonicalizes like [c]. *)
Definition cls_match (fl : flags) (neg : bool) (its : list cls_item) (c : ascii) : bool :=
  let m := existsb (item_match c) its
           || (icase fl && (existsb (item_match (lower_char c)) its
                            || existsb (item_match (upper_char c)) its)) in
  xorb neg m.

Definition is_line_term (c : ascii) : bool :=
  (nat_of_ascii c =? 10) || (nat_of_ascii c =? 13).

Definition word_at (s : str) (i : nat) : bool :=
  match nth_error s i with Some c => is_word c | None => false end.

Definition cont := nat -> caps -> option (nat * caps).

Fixpoint m (fuel : nat) (fl : flags) (s : str) (r : re) (i : nat) (c : caps)
         (k : cont) : option (nat * caps) :=
  match fuel with
  | O => None
  | S f =>
    match r with
    | Eps => k i c
    | Chr a =>
        match nth_error s i with
        | Some b => if char_eq fl a b then k (S i) c else None
        | None => None
        end
    | Cls neg its =>
        match nth_error s i with
        | Some b => if cls_match fl neg its b then k (S i) c else None
        | None => None
        end
    | Dot =>
        match nth_error s i with
        | Some b => if dotall fl || negb (is_line_term b) then k (S i) c else None
        | None => None
        end
    | Seq r1 r2 => m f fl s r1 i c (fun j c' => m f fl s r2 j c' k)
    | Alt r1 r2 =>
        match m f fl s r1 i c k with
        | Some x => Some x
        | None => m f fl s r2 i c k
        end
    | Star true r1 =>
        match m f fl s r1 i c
                (fun j c' => if j =? i then None else m f fl s (Star true r1) j c' k) with
        | Some x => Some x
        | None => k i c
        end
    | Star false r1 =>
        match k i c with
        | Some x => Some x
        | None =>
            m f fl s r1 i c
              (fun j c' => if j =? i then None else m f fl s (Star false r1) j c' k)
        end
    | Group n r1 => m f fl s r1 i c (fun j c' => k j ((n, (i, j)) :: c'))
    | Bol => if i =? 0 then k i c else None
    | Eol => if i =? length s then k i c else None
    | WordB =>
        let a := match i with O => false | S i' => word_at s i' end in
        if xorb a (word_at s i) then k i c else None
    | Ahead r1 =>
        match m f fl s r1 i c (fun j c' => Some (j, c')) with
        | Some (_, c') => k i c'
        | None => None
        end
    end
  end.

Definition fuel_for (s : str) : nat := 64 * (length s + 16).

(** A match attempt at position [i]. *)
Definition exec_at (fl : flags) (r : re) (s : str) (i : nat) : option (nat * caps) :=
  m (fuel_for s) fl s r i [] (fun j c => Some (j, c)).

Fixpoint find_aux (fl : flags) (r : re) (s : str) (n i : nat) : option (nat * nat * caps) :=
  match exec_at fl r s i with
  | Some (j, c) => Some (i, j, c)
  | None => match n with O => None | S n' => find_aux fl r s n' (S i) end
  end.

(** The first match starting at or after [i]. *)
Definition find_from (fl : flags) (r : re) (s : str) (i : nat) : option (nat * nat * caps) :=
  if length s <? i then None else find_aux fl r s (length s - i) i.

Definition substring (s : str) (a b : nat) : str := firstn (b - a) (skipn a s).

Fixpoint lookup (n : nat) (c : caps) : option (nat * nat) :=
  match c with
  | [] => None
  | (n', ab) :: c' => if n =? n' then Some ab else lookup n c'
  end.

(** The captured text of group [n] ([undefined] reads as the empty string). *)
Definition group (s : str) (c : caps) (n : nat) : str :=
  match lookup n c with Some (a, b) => substring s a b | None => [] end.

(** Replacement templates: literal text and [$n]. *)
Inductive piece := Lit (t : str) | Cap (n : nat).

Definition expand (s : str) (c : caps) (p : list piece) : str :=
  concat (map (fun x => match x with Lit t => t | Cap n => group s c n end) p).

Fixpoint replace_loop (fl : flags) (r : re) (p : list piece) (s : str)
         (n q pos : nat) : str :=
  match n with
  | O => skipn pos s
  | S n' =>
      match find_from fl r s q with
      | None => skipn pos s
      | Some (i, j, c) =>
          substring s pos i ++ expand s c p
            ++ (if global fl
                then replace_loop fl r p s n' (if j =? i then S j else j) j
                else skipn j s)
      end
  end.

(** [s.replace(re, template)]. *)
Definition replace (fl : flags) (r : re) (p : list piece) (s : str) : str :=
  replace_loop fl r p s (length s + 2) 0 0.

(** [s.match(re)] without the [g] flag: the match bounds and captures. *)
Definition match_ (fl : flags) (r : re) (s : str) : option (nat * nat * caps) :=
  find_from fl r s 0.

(** [s.replace(str, t)] with a string pattern: first occurrence only. *)
Fixpoint index_of (s w : str) (i : nat) : option nat :=
  if prefixb w s then Some i
  else match s with [] => None | _ :: s' => index_of s' w (S i) end.

Definition replace_str (s w t : str) : str :=
  match index_of s w 0 with
  | Some i => firstn i s ++ t ++ skipn (i + length w) s
  | None => s
  end.

(** Building blocks. *)
Definition lit (t : string) : re :=
  fold_right (fun ch r => Seq (Chr ch) r) Eps (list_ascii_of_string t).

Fixpoint seqs (l : list re) : re :=
  match l with [] => Eps | [r] => r | r :: l' => Seq r (seqs l') end.

Definition plus (r : re) : re := Seq r (Star true r).
Definition opt (r : re) : re := Alt r Eps.
Definition ch (t : string) : ascii :=
  match t with String c _ => c | EmptyString => zero end.

Definition fl_g : flags := {| icase := false; dotall := false; global := true |}.
Definition fl_gi : flags := {| icase := true; dotall := false; global := true |}.
Definition fl_i : flags := {| icase := true; dotall := false; global := false |}.
Definition fl_is : flags := {| icase := true; dotall := true; global := false |}.

End Regex.

(* ------------------------------------------------------------------ *)
(** ** Exceptions *)

Module Exc.

(** The exceptions raised along the pipeline: a [SyntaxError] from
    [new RegExp(source)], an error of the OCR engine on one pass, an error
    of [preprocessImage]. *)
Inductive exn :=
| SyntaxError (source : str)
| EngineError (code : nat)
| PreprocessError.

Inductive outcome (A : Type) :=
| Ok (a : A)
| Throw (e : exn).
Arguments Ok {A} a.
Arguments Throw {A} e.

Definition bind {A B} (x : outcome A) (f : A -> outcome B) : outcome B :=
  match x with Ok a => f a | Throw e => Throw e end.

(** JavaScript values reaching the normalisation steps. *)
Inductive jsval :=
| JUndefined
| JNull
| JString (s : str).

End Exc.

Import Exc.

(* ------------------------------------------------------------------ *)
(** ** Text normalisation: [postprocessText] (enhanced-ocr.js, 397-447)

    The declaration of [enhanceIngredientText] at lines 450-530 is
    shadowed: the script declares [enhanceIngredientText] again at line
    1398, and in a classic script the later function declaration is the
    one the name is bound to. The effective [enhanceIngredientText] is
    modelled with the minimal module below. *)

Module Normalize.
Import Regex.

Definition L (t : string) : piece := Lit (s2l t).
Definition nl : re := Chr (ascii_of_nat 10).
Definition sp : re := Cls false [CSpace].
Definition ws_star : re := Star true sp.
Definition wb (r : re) : re := seqs [WordB; r; WordB].

(** The chained [.replace(...)] calls of [postprocessText]. *)
Definition pp_fixes : list (flags * re * list piece) := [
  (fl_gi, lit "c0rn", [L "corn"]);
  (fl_gi, wb (lit "fiour"), [L "flour"]);
  (fl_gi, wb (lit "oll"), [L "oil"]);
  (fl_gi, wb (lit "sall"), [L "salt"]);
  (fl_gi, Seq WordB (lit "water,"), [L "water,"]);
  (fl_gi, Seq WordB (lit "sugar,"), [L "sugar,"]);
  (fl_g, seqs [Chr (ch ","); ws_star; Chr (ch ",")], [L ","]);
  (fl_g, seqs [Chr (ch "."); ws_star; Chr (ch ".")], [L "."]);
  (fl_gi, lit "lngredients", [L "Ingredients"]);
  (fl_gi, wb (lit "contams"), [L "contains"]);
  (fl_gi, wb (lit "allergems"), [L "allergens"]);
  (fl_gi, lit "g1uten", [L "gluten"]);
  (fl_gi, lit "suger", [L "sugar"]);
  (fl_gi, lit "g1ucose", [L "glucose"]);
  (fl_gi, lit "mi1k", [L "milk"]);
  (fl_gi, lit "w1th", [L "with"]);
  (fl_gi, lit "rnay", [L "may"]);
  (fl_gi, lit "waler", [L "water"]);
  (fl_gi, lit "wafer", [L "water"]);
  (fl_gi, lit "frorn", [L "from"]);
  (fl_gi, lit "preservatlve", [L "preservative"])
].

Definition apply_fixes (l : list (flags * re * list piece)) (s : str) : str :=
  fold_left (fun acc x => let '(fl, r, p) := x in replace fl r p acc) l s.

(** [(?=ingredients|\n\n|$)] and [.*?] under the [s] flag. *)
Definition stop : re := Ahead (Alt (lit "ingredients") (Alt (Seq nl nl) Eol)).
Definition lazy_any : re := Star false Dot.

Definition nutritionRegexes : list re := [
  seqs [lit "nutrition"; ws_star; lit "fact"; opt (Chr (ch "s")); lazy_any; stop];
  seqs [lit "nutritional"; ws_star; lit "information"; lazy_any; stop];
  seqs [lit "serving"; ws_star; lit "size"; lazy_any; stop];
  seqs [lit "calories";
        opt (Group 1 (seqs [ws_star; lit "per"; ws_star; lit "serving"]));
        lazy_any; stop];
  seqs [wb (lit "calories"); lazy_any; wb (lit "fat"); lazy_any;
        wb (lit "sodium"); lazy_any; wb (lit "protein")]
].

(** [[\s\:\.]+] *)
Definition sep : re := plus (Cls false [CSpace; CChar (ch ":"); CChar (ch ".")]).

(** [/ingredients[\s\:\.]+([^]* )/i] (space added) *)
Definition ingredientsRegex : re :=
  seqs [lit "ingredients"; sep; Group 1 (Star true (Cls true []))].

Definition postprocessText (text : str) : str :=
  if negb (truthy text) then [] else
  let processed := trim (apply_fixes pp_fixes text) in
  let processed :=
    fold_left (fun acc r => replace fl_is r [] acc) nutritionRegexes processed in
  let processed :=
    match match_ fl_i ingredientsRegex processed with
    | Some (_, _, c) => s2l "Ingredients: " ++ trim (group processed c 1)
    | None => processed
    end in
  trim processed.

(** Parsing a key spliced into [new RegExp(...)], as [cleanFoodLabelText]
    does with [new RegExp(error, 'ig')]. Among the regular-expression
    syntax characters the keys contain only [')'], which without an open
    group is the early error "Unmatched ')'"; every other key character is
    a literal. *)
Fixpoint key_body (w : str) : option re :=
  match w with
  | [] => Some Eps
  | c :: w' =>
      if Ascii.eqb c (ch ")") then None
      else option_map (Seq (Chr c)) (key_body w')
  end.

Definition az : re := Cls false [CRange (ch "a") (ch "z")].
Definition wch : re := Cls false [CWord].
Definition dig : re := Cls false [CDigit].

(** [postprocessText] on arbitrary JavaScript values ([if (!text) return "";]). *)
Definition postprocessText_js (v : jsval) : jsval :=
  match v with JString s => JString (postprocessText s) | _ => JString [] end.

End Normalize.

(* ------------------------------------------------------------------ *)
(** ** Double-precision arithmetic

    Every arithmetic operation on JavaScript numbers rounds its exact
    result to the nearest IEEE 754 binary64 value, ties to even. [fl] is
    that rounding on a rational. The values rounded here (image sides and
    scale factors) stay far below the overflow threshold, so [Infinity]
    does not arise. *)

Module Binary64.
Local Open Scope Z_scope.

(** The integer nearest to [n / d] (for [0 <= n]), ties to even. *)
Definition round_ne (n : Z) (d : positive) : Z :=
  let q := n / Zpos d in
  match Z.compare (2 * (n mod Zpos d)) (Zpos d) with
  | Lt => q
  | Gt => q + 1
  | Eq => if Z.even q then q else q + 1
  end.

(** [n / d * 2 ^ (- e)] as a fraction. *)
Definition scaled (n : Z) (d : positive) (e : Z) : Z * positive :=
  if e <=? 0 then (n * 2 ^ (- e), d) else (n, (d * Z.to_pos (2 ^ e))%positive).

(** The rounding of [n / d > 0]: the exponent [e] puts [n / d / 2 ^ e] in
    [[2^52, 2^53)], the range of the 53-bit significand, or is [-1074]
    for subnormal values; the significand [n / d / 2 ^ e] is then rounded
    to an integer. *)
Definition fl_pos (n : Z) (d : positive) : Q :=
  let k := Z.log2 n - Z.log2 (Zpos d) in
  let '(a, b) := scaled n d (k - 52) in
  let e := Z.max (if 2 ^ 52 * Zpos b <=? a then k - 52 else k - 53) (-1074) in
  let '(a', b') := scaled n d e in
  let m := round_ne a' b' in
  if e <=? 0 then Qmake m (Z.to_pos (2 ^ (- e))) else inject_Z (m * 2 ^ e).

Definition fl (x : Q) : Q :=
  match Qnum x with
  | Z0 => 0%Q
  | Zpos n => fl_pos (Zpos n) (Qden x)
  | Zneg n => Qopp (fl_pos (Zpos n) (Qden x))
  end.

End Binary64.

(* ------------------------------------------------------------------ *)
(** ** Image preprocessing: [getImageData] and the adaptive threshold of
    [preprocessImage] (enhanced-ocr.js, 60-206) *)

Module Preprocess.
Local Open Scope Q_scope.

(** The three kinds of [src] handled by [getImageData]: a canvas, an
    [IMG] element (natural and layout sizes) and a URL, already decoded
    to the [img.width] / [img.height] it reports. *)
Inductive source :=
| SrcCanvas (width height : Q)
| SrcImg (naturalWidth naturalHeight width height : Q)
| SrcUrl (width height : Q).

Definition MAX_SIZE : Q := 1500.

(** [if (width > MAX_SIZE || height > MAX_SIZE) {
       scale = Math.min(MAX_SIZE / width, MAX_SIZE / height);
       width *= scale; height *= scale; }]
    in double precision, with no rounding to whole pixels. A zero side
    gives the quotient [Infinity], which [Math.min] ignores. *)
Definition limit_size (width height : Q) : Q * Q :=
  if negb (Qle_bool width MAX_SIZE) || negb (Qle_bool height MAX_SIZE) then
    let scale :=
      if Qeq_bool width 0 then Binary64.fl (MAX_SIZE / height)
      else if Qeq_bool height 0 then Binary64.fl (MAX_SIZE / width)
      else Qmin (Binary64.fl (MAX_SIZE / width)) (Binary64.fl (MAX_SIZE / height)) in
    (Binary64.fl (width * scale), Binary64.fl (height * scale))
  else (width, height).

(** [x || y] on numbers: [x] unless [x] is [0]. *)
Definition or_num (x y : Q) : Q := if Qeq_bool x 0 then y else x.

(** The [width] and [height] returned by [getImageData]. *)
Definition getImageData_dims (src : source) : Q * Q :=
  match src with
  | SrcCanvas w h => (w, h)
  | SrcImg nw nh w h => limit_size (or_num nw w) (or_num nh h)
  | SrcUrl w h => limit_size w h
  end.

(** Buffers: [data] is the flat RGBA [Uint8ClampedArray]. The pixel loops
    are modelled for a whole-number [width] and [height], as a canvas
    source and an image that is not downscaled have. A downscaled image
    can come with a fractional side (a 1001 x 2000 image is drawn at scale
    0.75, with the width 750.75), and then the loop's byte index [(y * width + x) * 4]
    ([index_js] below) no longer addresses pixel [(x, y)]; that case is
    outside the pixel model. *)
Definition isSmallCrop (width height : nat) : bool :=
  (width <? 500)%nat || (height <? 200)%nat.



Definition get (d : list Z) (i : nat) : Z := nth i d 0%Z.

(** Writes beyond the end of a typed array are ignored. *)
Fixpoint set_nth (d : list Z) (i : nat) (v : Z) : list Z :=
  match d, i with
  | [], _ => []
  | _ :: d', O => v :: d'
  | x :: d', S i' => x :: set_nth d' i' v
  end.

(** [(data[idx] + data[idx+1] + data[idx+2]) / 3] *)
Definition avg (d : list Z) (idx : nat) : Q :=
  inject_Z (get d idx + get d (idx + 1) + get d (idx + 2))%Z / 3.

Definition pixel_index (width x y : nat) : nat := ((y * width + x) * 4)%nat.

(** [const idx = (y * width + x) * 4;] with a width of any value. *)
Definition index_js (width : Q) (x y : nat) : Q :=
  Binary64.fl (Binary64.fl (Binary64.fl (inject_Z (Z.of_nat y) * width) + inject_Z (Z.of_nat x)) * 4).

(** The local region [startX <= lx < endX], [startY <= ly < endY]. *)
Definition window_sum (width : nat) (d : list Z) (sx ex sy ey : nat) : Q :=
  fold_left (fun acc ly =>
    fold_left (fun acc' lx => acc' + avg d (pixel_index width lx ly))
              (List.seq sx (ex - sx)) acc)
    (List.seq sy (ey - sy)) 0.




(** Pixels in row-major order (the chunks of 50 rows are visited in row
    order; the [setTimeout] yield between chunks does not touch [data]). *)
Definition row (width y : nat) : list (nat * nat) :=
  map (fun x => (x, y)) (List.seq 0 width).

Definition coords (width height : nat) : list (nat * nat) :=
  flat_map (row width) (List.seq 0 height).


(** The pixels visited before [(x, y)]. *)
Definition before (width x y : nat) : list (nat * nat) :=
  flat_map (row width) (List.seq 0 y) ++ map (fun x' => (x', y)) (List.seq 0 x).

End Preprocess.

(* ------------------------------------------------------------------ *)
(** ** Engine options of [performOCR] (enhanced-ocr.js, 9-55) *)

Module PerformOCR.

(** Option values: strings, the [logger] arrow function set by
    [performOCR], and any other value a caller passes. *)
Inductive value := VStr (s : string) | VLogger | VOther (n : nat).

(** A plain object: its own properties in insertion order. *)
Definition obj := list (string * value).

(** [o[k] = v]: an existing property keeps its place. *)
Fixpoint obj_set (o : obj) (k : string) (v : value) : obj :=
  match o with
  | [] => [(k, v)]
  | (k', v') :: o' => if String.eqb k' k then (k, v) :: o' else (k', v') :: obj_set o' k v
  end.

Fixpoint obj_get (o : obj) (k : string) : option value :=
  match o with
  | [] => None
  | (k', v) :: o' => if String.eqb k' k then Some v else obj_get o' k
  end.

(** The spread [{ ...target, ...src }]: the properties of [src] are
    assigned in order onto a copy of [target]. *)
Definition spread (target src : obj) : obj :=
  fold_left (fun o kv => obj_set o (fst kv) (snd kv)) src target.

Local Open Scope string_scope.
Definition defaultOptions : obj := [
  ("lang", VStr "eng");
  ("langPath", VStr "https://cdn.jsdelivr.net/npm/tesseract.js@4/lang-data");
  ("tessedit_char_whitelist",
   VStr "abcdefghijklmnopqrstuvwxyzABCDEFGHIJKLMNOPQRSTUVWXYZ0123456789,.():-%;/*& ");
  ("preserve_interword_spaces", VStr "1");
  ("tessedit_pageseg_mode", VStr "6");
  ("tessjs_create_box", VStr "0");
  ("tessjs_create_unlv", VStr "0");
  ("tessjs_create_osd", VStr "0")
].

(** [const finalOptions = { ...defaultOptions, ...options };
     finalOptions.logger = progress => {...};] *)
Definition finalOptions (options : obj) : obj :=
  obj_set (spread (spread [] defaultOptions) options) "logger" VLogger.
Local Close Scope string_scope.

Local Open Scope Q_scope.

(** [Math.round]: the nearest integer, halves rounded up. *)
Definition Math_round (q : Q) : Z := Qfloor (q + (1 # 2)).

(** The logger on a ['recognizing text'] progress event:
    [const percent = Math.round(progress.progress * 100);
     const overallPercent = 50 + Math.round(progress.progress * 30);] *)
Definition percent (progress : Q) : Z := Math_round (progress * 100).
Definition overallPercent (progress : Q) : Z := (50 + Math_round (progress * 30))%Z.

End PerformOCR.

(* ------------------------------------------------------------------ *)
(** ** Pixel passes run in chunks of rows: the fixed threshold of
    [preprocessImage] (enhanced-ocr.js, 234-256) and the three passes of
    [preprocessFoodLabel] (enhanced-ocr.js, 894-1002), for a whole-number
    width and height, as for the adaptive threshold *)

Module Passes.
Import Preprocess.
Local Open Scope Q_scope.

Definition CHUNK_SIZE : nat := 50.

(** [for (let chunkStart = 0; chunkStart < height; chunkStart += CHUNK_SIZE) {
       const chunkEnd = Math.min(chunkStart + CHUNK_SIZE, height);
       for (let y = chunkStart; y < chunkEnd; y++) ... }]
    (the [fuel] bounds the number of chunks). *)
Fixpoint chunk_rows (fuel height chunkStart : nat) : list nat :=
  match fuel with
  | O => []
  | S f =>
      if (chunkStart <? height)%nat then
        let chunkEnd := Nat.min (chunkStart + CHUNK_SIZE) height in
        List.seq chunkStart (chunkEnd - chunkStart)
          ++ chunk_rows f height (chunkStart + CHUNK_SIZE)
      else []
  end.

Definition rows (height : nat) : list nat := chunk_rows (S height) height 0.

(** The pixels in the order the nested loops visit them. *)
Definition pixels (width height : nat) : list (nat * nat) :=
  flat_map (row width) (rows height).

(** [data[idx] = data[idx+1] = data[idx+2] = v;] *)
Definition write_px (width : nat) (d : list Z) (x y : nat) (v : Z) : list Z :=
  let idx := pixel_index width x y in
  set_nth (set_nth (set_nth d (idx + 2) v) (idx + 1) v) idx v.

(** A loop body computing the new value of pixel [(x, y)] from the
    buffer it then writes. *)
Definition px_step (value : list Z -> nat -> nat -> Z) (width : nat)
  (d : list Z) (xy : nat * nat) : list Z :=
  let '(x, y) := xy in write_px width d x y (value d x y).

Definition run (value : list Z -> nat -> nat -> Z) (width height : nat) (d : list Z) : list Z :=
  fold_left (px_step value width) (pixels width height) d.

(** [const newVal = avg > threshold ? 255 : 0;] *)
Definition fixed_value (threshold : Q) (width : nat) (d : list Z) (x y : nat) : Z :=
  if negb (Qle_bool (avg d (pixel_index width x y)) threshold) then 255%Z else 0%Z.

Definition fixed_threshold (threshold : Q) (width height : nat) (d : list Z) : list Z :=
  run (fun d x y => fixed_value threshold width d x y) width height d.

(** [preprocessImage], second image: [isSmallCrop ? 140 : 150]. *)
Definition contrast_threshold (width height : nat) : Q :=
  if isSmallCrop width height then 140 else 150.

Definition contrast_pass (width height : nat) (d : list Z) : list Z :=
  fixed_threshold (contrast_threshold width height) width height d.

(** [preprocessFoodLabel], canvases 1 and 3. *)
Definition label_pass1 (width height : nat) (d : list Z) : list Z :=
  fixed_threshold 160 width height d.

Definition label_pass3 (width height : nat) (d : list Z) : list Z :=
  fixed_threshold 130 width height d.

(** [preprocessFoodLabel], canvas 2: the adaptive threshold with
    [blockSize = Math.max(11, Math.floor(Math.min(width, height) / 15))]
    and [C = 7], on the buffer it rewrites. *)
Definition label_blockSize (width height : nat) : nat :=
  Nat.max 11 (Nat.min width height / 15).

Definition label_C : Q := 7.

(** [startX = Math.max(0, x - blockSize)], [endX = Math.min(width, x + blockSize)]
    and the same for [y]. *)
Definition window (b width height x y : nat) : nat * nat * nat * nat :=
  ((x - b)%nat, Nat.min width (x + b), (y - b)%nat, Nat.min height (y + b)).

(** [count]: the number of pixels summed. *)
Definition window_count (b width height x y : nat) : nat :=
  let '(sx, ex, sy, ey) := window b width height x y in ((ey - sy) * (ex - sx))%nat.

Definition label_mean (width height : nat) (d : list Z) (x y : nat) : Q :=
  let b := label_blockSize width height in
  let '(sx, ex, sy, ey) := window b width height x y in
  window_sum width d sx ex sy ey / inject_Z (Z.of_nat (window_count b width height x y)).

(** [const newValue = pixelAvg < (mean - C) ? 0 : 255;] *)
Definition label_value (width height : nat) (d : list Z) (x y : nat) : Z :=
  if negb (Qle_bool (label_mean width height d x y - label_C) (avg d (pixel_index width x y)))
  then 0%Z else 255%Z.

Definition label_pass2 (width height : nat) (d : list Z) : list Z :=
  run (label_value width height) width height d.

End Passes.

(* ------------------------------------------------------------------ *)
(** ** Food-label path: [cleanFoodLabelText] (enhanced-ocr.js, 1030-1098)
    and [performFoodLabelOCR] (enhanced-ocr.js, 635-759) *)

Module FoodLabel.
Import Regex.

Definition L := Normalize.L.

(** [/ingredients\s*:?\s*([^.]*\.?)/i] *)
Definition ingredientSectionRegex : re :=
  seqs [lit "ingredients"; Normalize.ws_star; opt (Chr (ch ":")); Normalize.ws_star;
        Group 1 (Seq (Star true (Cls true [CChar (ch ".")])) (opt (Chr (ch "."))))].

(** "Special ingredient separator handling". *)
Definition separator_fixes : list (flags * re * list piece) := [
  (fl_gi, seqs [Group 1 Normalize.az; Chr (ch ","); Group 2 Normalize.az], [Cap 1; L ", "; Cap 2]);
  (fl_g, seqs [Group 1 Normalize.dig; Chr (ch "%"); Group 2 Normalize.wch], [Cap 1; L "%, "; Cap 2]);
  (fl_g, seqs [Chr (ch "("); Group 1 (plus (Cls false [CDigit; CChar (ch ".")]));
               Chr (ch "%"); Chr (ch ")")], [L "("; Cap 1; L "%)"]);
  (fl_g, seqs [Chr (ch "."); Chr (ch " ")], [L ", "])
].

(** The object [replacements] of [cleanFoodLabelText], in
    [Object.entries] order. *)
Local Open Scope string_scope.
Definition replacements : list (string * string) := [
  ("Ingred ents", "Ingredients"); ("ingred ents", "ingredients");
  ("INGRED ENTS", "INGREDIENTS"); ("Ingredienis", "Ingredients");
  ("Ingrediants", "Ingredients"); ("Ingredants", "Ingredients");
  ("inodified", "modified"); ("xantnan", "xanthan"); ("xaninan", "xanthan");
  ("xantnem", "xanthan"); ("gum,", "gum,"); ("flcur", "flour");
  ("flour,", "flour,"); ("bran,", "bran,"); ("staren", "starch");
  ("starcn", "starch"); ("sirch", "starch"); ("starci", "starch");
  ("stabilzed", "stabilized"); ("siabilized", "stabilized");
  ("emulsi ier", "emulsifier"); ("emulsi tier", "emulsifier");
  ("NIIILK", "MILK"); ("NIILK", "MILK"); ("lecithin)", "lecithin),");
  ("TRACES", "TRACES"); ("WHEATS", "WHEAT"); ("NUTS!", "NUTS");
  ("NUTS1", "NUTS"); ("NUTSI", "NUTS")
].
Local Close Scope string_scope.

(** [new RegExp(error, 'ig')]: the key is the whole pattern; its only
    syntax character is the [')'] of ["lecithin)"]. *)
Definition error_regex (w : str) : outcome re :=
  match Normalize.key_body w with
  | Some r => Ok r
  | None => Throw (SyntaxError w)
  end.

(** [for (const [error, correction] of Object.entries(replacements))
       cleaned = cleaned.replace(new RegExp(error, 'ig'), correction);] *)
Fixpoint apply_replacements (tbl : list (string * string)) (s : str) : outcome str :=
  match tbl with
  | [] => Ok s
  | (e, c) :: tbl' =>
      bind (error_regex (s2l e))
        (fun r => apply_replacements tbl' (replace fl_gi r [L c] s))
  end.

Definition alpha : re := Cls false [CRange (ch "A") (ch "Z"); CRange (ch "a") (ch "z")].

(** "Fix specific formatting for food ingredients". *)
Definition format_fixes : list (flags * re * list piece) := [
  (fl_g, seqs [Group 1 alpha; Chr (ch ","); Group 2 alpha], [Cap 1; L ", "; Cap 2]);
  (fl_g, Seq (plus Normalize.sp) (Chr (ch ".")), [L "."]);
  (fl_g, seqs [Normalize.ws_star; Chr (ch "("); Normalize.ws_star], [L " ("]);
  (fl_g, seqs [Normalize.ws_star; Chr (ch ")"); Normalize.ws_star], [L ") "]);
  (fl_g, seqs [Chr (ch "."); Normalize.ws_star; Chr (ch ",")], [L ","]);
  (fl_g, seqs [Chr (ch "."); Normalize.ws_star; Chr (ch ".")], [L "."])
].

Definition cleanFoodLabelText (text : str) : outcome str :=
  if negb (truthy text) then Ok [] else
  let cleaned := trim (replace fl_g (plus Normalize.sp) [L " "] text) in
  let cleaned :=
    match match_ fl_i ingredientSectionRegex cleaned with
    | Some (_, _, c) =>
        if truthy (group cleaned c 1)
        then s2l "INGREDIENTS: " ++ trim (group cleaned c 1) else cleaned
    | None => cleaned
    end in
  let cleaned := Normalize.apply_fixes separator_fixes cleaned in
  bind (apply_replacements replacements cleaned) (fun cleaned =>
  Ok (Normalize.apply_fixes format_fixes cleaned)).

(** [text.match(re)] is truthy exactly when [re] matches somewhere (with
    the [g] flag it is the array of all matches, [null] when there is
    none). *)
Definition found (fl : flags) (r : re) (s : str) : bool :=
  match match_ fl r s with Some _ => true | None => false end.

(** [/flour|bran|starch|gum|sugar|salt|water/gi] *)
Definition keywordRegex : re :=
  Alt (lit "flour") (Alt (lit "bran") (Alt (lit "starch") (Alt (lit "gum")
    (Alt (lit "sugar") (Alt (lit "salt") (lit "water")))))).

(** [if (text.match(/ingredients/i) ||
        (text.match(/flour|.../gi) && text.length > bestText.length))
       bestText = text;] *)
Definition best_step (bestText text : str) : str :=
  if found fl_i (lit "ingredients") text
     || (found fl_gi keywordRegex text && (length bestText <? length text))
  then text else bestText.

Definition pick_best (texts : list str) : str := fold_left best_step texts [].

(** [Math.max(...xs)]; [None] is [-Infinity], the value on an empty list. *)
Definition js_max (xs : list Q) : option Q :=
  match xs with [] => None | x :: xs' => Some (fold_left Qmax xs' x) end.

(** The object returned by [performFoodLabelOCR]. *)
Record label_result := {
  label_text : str;
  label_confidence : option Q;
  rawTexts : list str
}.

Local Open Scope string_scope.
Definition lang_opts : list (string * string) :=
  [("lang", "eng"); ("langPath", "https://cdn.jsdelivr.net/npm/tesseract.js@4/lang-data")].
Definition pass_opts1 : list (string * string) :=
  lang_opts ++ [("tessedit_pageseg_mode", "6")].
Definition pass_opts2 : list (string * string) :=
  lang_opts ++ [("tessedit_pageseg_mode", "7"); ("tessjs_create_box", "1");
                ("preserve_interword_spaces", "1")].
Definition pass_opts3 : list (string * string) :=
  lang_opts ++ [("tessedit_pageseg_mode", "11"); ("tessjs_create_box", "1")].
Local Close Scope string_scope.

Section LabelOCR.

(** [correctImageOrientation] catches its own errors; [preprocessFoodLabel]
    may throw; [recognize] is [Tesseract.recognize] with its [data]. *)
Variable image : Type.
Variable correctImageOrientation : image -> image.
Variable preprocessFoodLabel : image -> outcome (list image).
Variable recognize : option image -> list (string * string) -> outcome Fusion.result.

(** [try { const r = await Tesseract.recognize(img, opts); results.push(r); }
     catch (e) { logDebug(...) }] *)
Definition run_pass (results : list Fusion.result) (img : option image)
  (opts : list (string * string)) : list Fusion.result :=
  match recognize img opts with
  | Ok r => results ++ [r]
  | Throw _ => results
  end.

(** The outer [catch] rethrows, so it is the identity on outcomes. *)
Definition performFoodLabelOCR (imageElement : image) : outcome label_result :=
  let orientedImage := correctImageOrientation imageElement in
  bind (preprocessFoodLabel orientedImage) (fun processedImages =>
  let results := run_pass [] (nth_error processedImages 0) pass_opts1 in
  let results := run_pass results (nth_error processedImages 1) pass_opts2 in
  let results := run_pass results (nth_error processedImages 2) pass_opts3 in
  let texts := map Fusion.text results in
  let bestText := pick_best texts in
  let bestText :=
    if negb (truthy bestText) && (0 <? length results)
    then Fusion.combineOcrResults results
    else if negb (truthy bestText) then s2l "No text detected"
    else bestText in
  bind (cleanFoodLabelText bestText) (fun cleanedText =>
  Ok {| label_text := cleanedText;
        label_confidence := js_max (map Fusion.confidence results);
        rawTexts := texts |})).

End LabelOCR.

End FoodLabel.

(* ------------------------------------------------------------------ *)
(** ** Sampling the image: [correctImageOrientation] (enhanced-ocr.js,
    316-394), [detectIngredientsSection] (enhanced-ocr.js, 1101-1265)
    and [detectIfFoodLabel] (enhanced-ocr.js, 1268-1329) *)

Module Detect.
Import Preprocess.
Local Open Scope Q_scope.

Definition qn (n : nat) : Q := inject_Z (Z.of_nat n).

(** [imageElement.naturalWidth || imageElement.width] *)
Definition or_nat (x y : nat) : nat := match x with O => y | _ => x end.

(** [Math.min(MAX_SIZE / width, MAX_SIZE / height)]; a zero side gives
    [Infinity], which [Math.min] ignores. *)
Definition min_scale (MAX_SIZE width height : nat) : Q :=
  match width, height with
  | O, _ => qn MAX_SIZE / qn height
  | _, O => qn MAX_SIZE / qn width
  | _, _ => Qmin (qn MAX_SIZE / qn width) (qn MAX_SIZE / qn height)
  end.

(** [if (width > MAX_SIZE || height > MAX_SIZE) {
       scale = Math.min(MAX_SIZE / width, MAX_SIZE / height);
       width = Math.floor(width * scale); height = Math.floor(height * scale); }]
    returning [(scale, width, height)]. The quotient and the products are
    taken exactly here; in double precision a product can round to just
    below a whole number, so that the floor is one less than here
    ([Math.floor(2147 * (1500 / 2147))] is 1499). *)
Definition floor_limit (MAX_SIZE width height : nat) : Q * nat * nat :=
  if (MAX_SIZE <? width)%nat || (MAX_SIZE <? height)%nat then
    let scale := min_scale MAX_SIZE width height in
    (scale, Z.to_nat (Qfloor (qn width * scale)), Z.to_nat (Qfloor (qn height * scale)))
  else (1, width, height).

(** What [correctImageOrientation] returns: the element itself, or the
    data URL of a rotated canvas of the given size. *)
Inductive oriented := Original | Rotated (width height : nat) (angle : Q).

(** [detect] is [Tesseract.detect] on the canvas of the given size:
    [result.orientation] is [None] when absent. *)
Definition correctImageOrientation (detect : nat -> nat -> outcome (option Q))
  (naturalWidth width naturalHeight height : nat) : oriented :=
  let '(_, scaledWidth, scaledHeight) :=
    floor_limit 1500 (or_nat naturalWidth width) (or_nat naturalHeight height) in
  match detect scaledWidth scaledHeight with
  | Ok (Some angle) =>
      if Qeq_bool angle 0 then Original
      else if Qeq_bool (Qabs angle) 90 || Qeq_bool (Qabs angle) 270
           then Rotated scaledHeight scaledWidth angle
           else Rotated scaledWidth scaledHeight angle
  | Ok None => Original
  | Throw _ => Original
  end.

Local Open Scope string_scope.
Definition foodKeywords : list str := map s2l [
  "ingredients"; "ingred"; "nutrition"; "calories";
  "serving"; "flour"; "sugar"; "salt"; "contains";
  "modified"; "starch"; "water"; "protein"; "fat";
  "gluten"; "bran"; "gum"; "distributed"; "inc."
].
Local Close Scope string_scope.

(** [recognize] is [Tesseract.recognize] on the canvas of the given size,
    returning [result.data.text]; the [catch] answers [false]. *)
Definition detectIfFoodLabel (recognize : nat -> nat -> outcome str)
  (naturalWidth width naturalHeight height : nat) : bool :=
  let '(_, w, h) :=
    floor_limit 600 (or_nat naturalWidth width) (or_nat naturalHeight height) in
  match recognize w h with
  | Ok t =>
      let text := toLowerCase t in
      existsb (fun keyword => includes text keyword) foodKeywords
  | Throw _ => false
  end.

Record bbox := { box_x : Q; box_y : Q; box_width : Q; box_height : Q }.

(** A word of [result.data.words] with its [bbox]. *)
Record word := { wtext : str; x0 : Q; y0 : Q; x1 : Q; y1 : Q }.
Record page := { ptext : str; pwords : list word }.

(** [if (avg < 100) blackCount++;] *)
Definition dark (d : list Z) (i : nat) : bool := negb (Qle_bool 100 (avg d i)).

Definition blackCount (width : nat) (d : list Z) (y : nat) : nat :=
  fold_left (fun n x => if dark d (pixel_index width x y) then S n else n)
            (List.seq 0 width) 0%nat.

(** [rowDensity] for the rows [startY <= y < height]. *)
Definition rowDensity (width height startY : nat) (d : list Z) : list nat :=
  map (blackCount width d) (List.seq startY (height - startY)).

(** [if (rowDensity[i] > maxDensity) { maxDensity = rowDensity[i];
     maxDensityRow = startY + i; }], returning [(maxDensity, maxDensityRow)]. *)
Definition find_max (rd : list nat) (startY : nat) : nat * nat :=
  let '(md, mr, _) :=
    fold_left (fun (acc : nat * nat * nat) v =>
                 let '(md, mr, i) := acc in
                 if (md <? v)%nat then (v, (startY + i)%nat, S i) else (md, mr, S i))
              rd (0%nat, startY, 0%nat) in
  (md, mr).

(** [rowDensity[j] < maxDensity * 0.3] ([undefined] compares false). *)
Definition below (rd : list nat) (maxDensity j : nat) : bool :=
  match nth_error rd j with
  | Some v => negb (Qle_bool (qn maxDensity * (3 # 10)) (qn v))
  | None => false
  end.

(** [for (let y = maxDensityRow; y > startY; y--) if (below) { ...; break; }] *)
Fixpoint scan_down (rd : list nat) (startY maxDensity y fuel : nat) : option nat :=
  match fuel with
  | O => None
  | S f =>
      if (startY <? y)%nat then
        if below rd maxDensity (y - startY) then Some y
        else scan_down rd startY maxDensity (y - 1) f
      else None
  end.

(** [for (let y = maxDensityRow; y < height; y++) if (below) { ...; break; }] *)
Fixpoint scan_up (rd : list nat) (startY maxDensity height y fuel : nat) : option nat :=
  match fuel with
  | O => None
  | S f =>
      if (y <? height)%nat then
        if below rd maxDensity (y - startY) then Some y
        else scan_up rd startY maxDensity height (S y) f
      else None
  end.

(** The density analysis on the pixels [d] of the [width] x [height]
    canvas. *)
Definition density_bbox (width height : nat) (scale : Q) (naturalWidth : nat)
  (d : list Z) : bbox :=
  let startY := (height * 2 / 5)%nat in
  let rd := rowDensity width height startY d in
  let '(maxDensity, maxDensityRow) := find_max rd startY in
  let startRow :=
    match scan_down rd startY maxDensity maxDensityRow (S maxDensityRow) with
    | Some y => (Z.of_nat y + 5)%Z
    | None => Z.of_nat maxDensityRow
    end in
  let endRow :=
    match scan_up rd startY maxDensity height maxDensityRow (S height) with
    | Some y => (Z.of_nat y - 5)%Z
    | None => Z.of_nat maxDensityRow
    end in
  {| box_x := 0; box_y := inject_Z startRow / scale; box_width := qn naturalWidth;
     box_height := inject_Z (endRow - startRow) / scale |}.

(** [recognize] is [Tesseract.recognize] on the lower half of the canvas
    of the given size; [d] is [ctx.getImageData(0, 0, width, height).data]. *)
Definition detectIngredientsSection (recognize : nat -> nat -> outcome page)
  (d : list Z) (naturalWidth width naturalHeight height : nat) : bbox :=
  let W := or_nat naturalWidth width in
  let H := or_nat naturalHeight height in
  let '(scale, w, h) := floor_limit 800 W H in
  match recognize w h with
  | Throw _ =>
      {| box_x := 0; box_y := qn (H * 6 / 10); box_width := qn W;
         box_height := qn (H * 3 / 10) |}
  | Ok pg =>
      if includes (toLowerCase (ptext pg)) (s2l "ingredients") then
        match find (fun wd => includes (toLowerCase (wtext wd)) (s2l "ingredient"))
                   (pwords pg) with
        | Some wd =>
            let yOffset := qn (h / 2) in
            {| box_x := Qmax 0 (x0 wd - 10) / scale;
               box_y := (y0 wd + yOffset - 5) / scale;
               box_width := Qmin (qn W) ((x1 wd - x0 wd + 20) / scale);
               box_height := Qmin (qn H - (y0 wd + yOffset) / scale) (qn H * (3 # 10)) |}
        | None => density_bbox w h scale W d
        end
      else density_bbox w h scale W d
  end.

End Detect.

(* ------------------------------------------------------------------ *)
(** ** The minimal OCR module (enhanced-ocr.js, 1345-1437)

    The same classic script declares [enhanceIngredientText],
    [detectIngredientsSection], [detectIfFoodLabel],
    [enhanceAndRecognizeText] and [performFoodLabelOCR] a second time at
    its end; these later declarations are the ones the hoisted bindings
    and the [window] assignments refer to. *)

Module Minimal.
Import Regex.

(** [/([a-z]),([a-z])/gi] *)
Definition comma_re : re :=
  seqs [Group 1 (Cls false [CRange "a"%char "z"%char]); Chr ","%char;
        Group 2 (Cls false [CRange "a"%char "z"%char])].

(** [if (!text) return "";
     return text.replace(/([a-z]),([a-z])/gi, '$1, $2').trim();] *)
Definition cleanBasicText (text : str) : str :=
  if negb (truthy text) then []
  else trim (replace fl_gi comma_re [Cap 1; Lit (s2l ", "); Cap 2] text).

Definition enhanceIngredientText (text : str) : str := cleanBasicText text.

(** The same on arbitrary JavaScript values: [if (!text) return "";]
    answers every falsy value. *)
Definition enhanceIngredientText_js (v : jsval) : jsval :=
  match v with JString s => JString (enhanceIngredientText s) | _ => JString [] end.

Section Basic.
Variable image : Type.

(** [recognize] is [Tesseract.recognize]: its [result.data.text] and
    [result.data.confidence]. *)
Variable recognize : image -> outcome Fusion.result.

(** The [catch] rethrows, so it is the identity on outcomes. *)
Definition performBasicOCR (imageElement : image) : outcome Fusion.result :=
  bind (recognize imageElement) (fun result =>
  Ok {| Fusion.text := cleanBasicText (Fusion.text result);
        Fusion.confidence := Fusion.confidence result |}).

Definition enhanceAndRecognizeText (imageElement : image) : outcome Fusion.result :=
  performBasicOCR imageElement.

Definition performFoodLabelOCR (imageElement : image) : outcome Fusion.result :=
  enhanceAndRecognizeText imageElement.

End Basic.

(** [{ x: 0, y: Math.floor(height * 0.5), width, height: Math.floor(height * 0.5) }] *)
Definition detectIngredientsSection (naturalWidth width naturalHeight height : nat) : Detect.bbox :=
  let W := Detect.or_nat naturalWidth width in
  let H := Detect.or_nat naturalHeight height in
  {| Detect.box_x := 0;
     Detect.box_y := inject_Z (Qfloor (Detect.qn H * (1 # 2)));
     Detect.box_width := Detect.qn W;
     Detect.box_height := inject_Z (Qfloor (Detect.qn H * (1 # 2))) |}.

End Minimal.

(* ------------------------------------------------------------------ *)
(** ** Multi-pass recognition: the first declaration of
    [enhanceAndRecognizeText] (enhanced-ocr.js, 533-632)

    Its call [enhanceIngredientText(cleanedText)] (line 615) is resolved
    through the script's binding of [enhanceIngredientText], which is the
    declaration of line 1398: [cleanBasicText]. *)

Module Orchestrator.
Import Fusion.

(** [const cleanedText = postprocessText(combinedText);
     const enhancedText = enhanceIngredientText(cleanedText);] *)
Definition normalize (combinedText : str) : str :=
  Minimal.enhanceIngredientText (Normalize.postprocessText combinedText).

Section Pipeline.

(** Images are opaque to the orchestration; [performOCR] is the engine
    boundary, [preprocessImage] may throw, [correctImageOrientation]
    catches its own errors and always returns an image. *)
Variable image : Type.
Variable correctImageOrientation : image -> image.
Variable preprocessImage : image -> outcome (list image).

Definition options := list (string * string).
Definition call := (option image * options)%type.
Variable performOCR : option image -> options -> outcome result.

(** State and exceptions: the log of engine calls is the state. *)
Definition M (A : Type) := list call -> outcome A * list call.

Definition ret {A} (a : A) : M A := fun s => (Ok a, s).
Definition mbind {A B} (x : M A) (f : A -> M B) : M B :=
  fun s => match x s with
           | (Ok a, s') => f a s'
           | (Throw e, s') => (Throw e, s')
           end.
Definition lift {A} (o : outcome A) : M A := fun s => (o, s).
Definition try_catch {A} (x : M A) (h : exn -> M A) : M A :=
  fun s => match x s with
           | (Throw e, s') => h e s'
           | r => r
           end.

Local Notation "x <- m ;; k" := (mbind m (fun x => k)) (at level 61, m at next level, right associativity).

Definition ocr_call (img : option image) (opts : options) : M result :=
  fun s => (performOCR img opts, s ++ [(img, opts)]).

Local Open Scope string_scope.
Definition opts1 : options := [("rotateAuto", "true")].
Definition opts2 : options :=
  [("rotateAuto", "true");
   ("tessedit_char_whitelist",
    "abcdefghijklmnopqrstuvwxyzABCDEFGHIJKLMNOPQRSTUVWXYZ0123456789,.():-%;/*& ");
   ("tessjs_create_box", "1")].
Local Close Scope string_scope.

(** [try { const r = await performOCR(img, opts); results.push(r); }
     catch (e) { logDebug(...) }] *)
Definition run_pass (results : list result) (img : option image) (opts : options)
  : M (list result) :=
  try_catch (r <- ocr_call img opts ;; ret (results ++ [r]))
            (fun _ => ret results).

Definition run_passes (processedImages : list image) : M (list result) :=
  results <- run_pass [] (nth_error processedImages 0) opts1 ;;
  run_pass results (nth_error processedImages 1) opts2.

(** [if (result && result.confidence > bestConfidence)] *)
Definition best_step (acc : Q * str) (r : result) : Q * str :=
  if negb (Qle_bool (Fusion.confidence r) (fst acc))
  then (Fusion.confidence r, text r) else acc.

Definition enhanceAndRecognizeText (imageElement : image) : M result :=
  try_catch
    (let orientedImage := correctImageOrientation imageElement in
     processedImages <- lift (preprocessImage orientedImage) ;;
     results <- run_passes processedImages ;;
     let '(bestConfidence, bestText) := fold_left best_step results (0%Q, []) in
     let combinedText :=
       if 1 <? length results then combineOcrResults results else bestText in
     let enhancedText := normalize combinedText in
     ret {| text := enhancedText; Fusion.confidence := bestConfidence |})
    (fun e => lift (Throw e)).

End Pipeline.

End Orchestrator.

(* ================================================================== *)
(** * Properties *)

(* ------------------------------------------------------------------ *)
(** ** Safety classifier *)

Module SafetyFacts.
Import Safety.

Lemma over_half_true (i : flagged) :
  over_half i = true <-> (1 # 2 < confidence i)%Q.
Proof.
  unfold over_half. rewrite negb_true_iff. split.
  - intro H. apply Qnot_le_lt. intro H'. apply Qle_bool_iff in H'. congruence.
  - intro H. destruct (Qle_bool (confidence i) (1 # 2)) eqn:E; [|reflexivity].
    apply Qle_bool_iff in E. exfalso. apply (Qlt_not_le _ _ H E).
Qed.

Lemma existsb_over_half (l : list flagged) :
  existsb over_half l = true <-> exists i, In i l /\ (1 # 2 < confidence i)%Q.
Proof.
  rewrite existsb_exists. split; intros [i [Hi H]]; exists i; split; auto;
    apply over_half_true; assumption.
Qed.

End SafetyFacts.

(** C1: whenever some flagged ingredient has confidence above 0.5, the
    verdict is forced to "not gluten free" and the message is the unsafe
    one (the cross-contamination suffix is then not appended). *)
Theorem classify_unsafe_forces_false (d : Safety.data) (l : list Safety.flagged)
  (Hl : Safety.flagged_ingredients d = Some l)
  (Hc : exists i, In i l /\ (1 # 2 < Safety.confidence i)%Q) :
  Safety.is_gluten_free (Safety.analyzeIngredientsForSafety d) = false /\
  Safety.message (Safety.analyzeIngredientsForSafety d) = Safety.msg_unsafe.
Proof.
  apply SafetyFacts.existsb_over_half in Hc.
  unfold Safety.analyzeIngredientsForSafety. rewrite Hl.
  destruct l as [|i l]; [discriminate|]. rewrite Hc. simpl. auto.
Qed.

(** C2: with a non-empty flag list whose confidences are all at most 0.5,
    the upstream verdict is kept and the message becomes the caution
    message, followed by the cross-contamination suffix exactly when the
    verdict is "gluten free". *)
Theorem classify_caution_keeps_verdict (d : Safety.data) (l : list Safety.flagged)
  (Hl : Safety.flagged_ingredients d = Some l) (Hne : l <> [])
  (Hc : forall i, In i l -> (Safety.confidence i <= 1 # 2)%Q) :
  Safety.is_gluten_free (Safety.analyzeIngredientsForSafety d) = Safety.is_gluten_free d /\
  Safety.message (Safety.analyzeIngredientsForSafety d) =
    Safety.msg_caution ++ (if Safety.is_gluten_free d then Safety.msg_cross else []).
Proof.
  assert (Hx : existsb Safety.over_half l = false).
  { destruct (existsb Safety.over_half l) eqn:E; [|reflexivity].
    apply SafetyFacts.existsb_over_half in E. destruct E as [i [Hi Hlt]].
    exfalso. apply (Qlt_not_le _ _ Hlt (Hc i Hi)). }
  unfold Safety.analyzeIngredientsForSafety. rewrite Hl.
  destruct l as [|i l]; [congruence|]. rewrite Hx. simpl.
  destruct (Safety.is_gluten_free d); simpl; rewrite ?app_nil_r; auto.
Qed.

(** C10: the classifier never turns a "not gluten free" input into a
    "gluten free" output. *)
Theorem classify_monotone_unsafe (d : Safety.data)
  (H : Safety.is_gluten_free d = false) :
  Safety.is_gluten_free (Safety.analyzeIngredientsForSafety d) = false.
Proof.
  unfold Safety.analyzeIngredientsForSafety.
  destruct (Safety.flagged_ingredients d) as [l|];
    [destruct (0 <? length l); [destruct (existsb Safety.over_half l)|]|];
    simpl; rewrite ?H; reflexivity.
Qed.

(* ------------------------------------------------------------------ *)
(** ** Strings: substrings, [split], [trim], [toLowerCase], [includes] *)

Module StrFacts.

Definition occurs (w s : str) : Prop := exists x y, s = x ++ w ++ y.

Lemma occurs_refl (s : str) : occurs s s.
Proof. exists [], []. rewrite app_nil_r. reflexivity. Qed.

Lemma occurs_trans (a b c : str) : occurs a b -> occurs b c -> occurs a c.
Proof.
  intros [x [y ->]] [x' [y' ->]]. exists (x' ++ x), (y ++ y').
  rewrite !app_assoc. reflexivity.
Qed.

Lemma occurs_app_r (w s t : str) : occurs w s -> occurs w (s ++ t).
Proof.
  intros [x [y ->]]. exists x, (y ++ t). rewrite !app_assoc. reflexivity.
Qed.

Lemma occurs_map_lower (w s : str) :
  occurs w s -> occurs (toLowerCase w) (toLowerCase s).
Proof.
  intros [x [y ->]]. exists (toLowerCase x), (toLowerCase y).
  unfold toLowerCase. rewrite !map_app. reflexivity.
Qed.

Lemma prefixb_app (w y : str) : prefixb w (w ++ y) = true.
Proof.
  induction w as [|c w IH]; [reflexivity|]. simpl. rewrite Ascii.eqb_refl. exact IH.
Qed.

Lemma includes_occurs (s w : str) : occurs w s -> includes s w = true.
Proof.
  intros [x [y ->]]. induction x as [|c x IH]; simpl.
  - pose proof (prefixb_app w y) as H. destruct (w ++ y); simpl; rewrite H; reflexivity.
  - rewrite IH, orb_true_r. reflexivity.
Qed.

Lemma lower_char_idem (c : ascii) : lower_char (lower_char c) = lower_char c.
Proof. destruct c as [[] [] [] [] [] [] [] []]; reflexivity. Qed.

Lemma toLowerCase_idem (s : str) : toLowerCase (toLowerCase s) = toLowerCase s.
Proof.
  unfold toLowerCase. rewrite map_map.
  apply map_ext. apply lower_char_idem.
Qed.

(** Every piece of [split(/\s+/)] is a substring of the input. *)
Lemma split_ws_aux_occurs (s cur : str) (b : bool) (t : str) :
  (b = true -> cur = []) ->
  In t (split_ws_aux s cur b) -> occurs t (rev cur ++ s).
Proof.
  revert cur b. induction s as [|c s IH]; intros cur b Hb Hin; simpl in Hin.
  - destruct Hin as [<-|[]]. rewrite app_nil_r. apply occurs_refl.
  - destruct (is_ws c).
    + destruct b.
      * rewrite (Hb eq_refl) in *. specialize (IH [] true (fun _ => eq_refl) Hin).
        destruct IH as [x [y Hxy]]. simpl in Hxy. exists (c :: x), y.
        simpl. rewrite Hxy. reflexivity.
      * destruct Hin as [<-|Hin].
        -- exists [], (c :: s). reflexivity.
        -- destruct (IH [] true (fun _ => eq_refl) Hin) as [x [y Hxy]].
           simpl in Hxy. exists (rev cur ++ c :: x), y. rewrite Hxy.
           rewrite <- !app_assoc. reflexivity.
    + specialize (IH (c :: cur) false (fun H => ltac:(discriminate H)) Hin).
      simpl in IH. rewrite <- app_assoc in IH. exact IH.
Qed.

Lemma split_ws_occurs (s t : str) : In t (split_ws s) -> occurs t s.
Proof.
  intro H. apply (split_ws_aux_occurs s [] false t); [discriminate|exact H].
Qed.

Lemma split_ws_nil (t : str) : In t (split_ws []) -> t = [].
Proof. simpl. intros [<-|[]]. reflexivity. Qed.

(** [drop_ws] removes a white-space prefix. *)
Definition no_ws_head (s : str) : Prop :=
  match s with [] => True | c :: _ => is_ws c = false end.

Lemma drop_ws_spec (s : str) :
  exists p, s = p ++ drop_ws s /\ no_ws_head (drop_ws s).
Proof.
  induction s as [|c s [p [Hp Hh]]]; simpl.
  - exists []. split; [reflexivity|exact I].
  - destruct (is_ws c) eqn:E.
    + exists (c :: p). simpl. rewrite <- Hp. split; [reflexivity|exact Hh].
    + exists []. split; [reflexivity|exact E].
Qed.

Lemma drop_ws_fix (s : str) : no_ws_head s -> drop_ws s = s.
Proof. destruct s as [|c s]; simpl; [reflexivity|]. intros ->. reflexivity. Qed.

Lemma trim_occurs (s : str) : occurs (trim s) s.
Proof.
  unfold trim. destruct (drop_ws_spec s) as [p [Hp _]].
  destruct (drop_ws_spec (rev (drop_ws s))) as [q [Hq _]].
  exists p, (rev q). rewrite Hp at 1. f_equal.
  set (D := drop_ws s) in *.
  transitivity (rev (rev D)); [symmetry; apply rev_involutive|].
  rewrite Hq at 1. rewrite rev_app_distr. reflexivity.
Qed.

Lemma trim_idem (s : str) : trim (trim s) = trim s.
Proof.
  unfold trim.
  set (t := drop_ws s).
  assert (Ht : no_ws_head t) by (destruct (drop_ws_spec s) as [? [_ H]]; exact H).
  set (v := drop_ws (rev t)).
  assert (Hv : no_ws_head v) by (destruct (drop_ws_spec (rev t)) as [? [_ H]]; exact H).
  destruct (drop_ws_spec (rev t)) as [q Hq]. fold v in Hq. destruct Hq as [Hq _].
  assert (Hpre : t = rev v ++ rev q).
  { rewrite <- (rev_involutive t), Hq, rev_app_distr. reflexivity. }
  assert (Hu : no_ws_head (rev v)).
  { destruct (rev v) as [|c u] eqn:E; [exact I|]. rewrite Hpre in Ht. exact Ht. }
  rewrite (drop_ws_fix _ Hu), rev_involutive, (drop_ws_fix _ Hv). reflexivity.
Qed.

End StrFacts.

(* ------------------------------------------------------------------ *)
(** ** Result fusion *)

Module FusionFacts.
Import Fusion StrFacts.

Lemma append_fold_prefix (ws : list str) (b : str) :
  exists suf, fold_left append_step ws b = b ++ suf.
Proof.
  revert b. induction ws as [|w ws IH]; intro b; simpl.
  - exists []. rewrite app_nil_r. reflexivity.
  - destruct (IH (append_step b w)) as [suf ->]. unfold append_step.
    destruct (includes (toLowerCase b) (toLowerCase w)).
    + exists suf. reflexivity.
    + exists (s2l " " ++ w ++ suf). rewrite <- !app_assoc. reflexivity.
Qed.

Lemma append_fold_id (ws : list str) (b : str) :
  (forall w, In w ws -> includes (toLowerCase b) (toLowerCase w) = true) ->
  fold_left append_step ws b = b.
Proof.
  revert b. induction ws as [|w ws IH]; intros b H; simpl; [reflexivity|].
  unfold append_step at 2. rewrite (H w (or_introl eq_refl)).
  apply IH. intros w' Hw'. apply H. right. exact Hw'.
Qed.

Lemma set_add_fold_in (l acc : list str) (w : str) :
  In w (fold_left set_add l acc) -> In w l \/ In w acc.
Proof.
  revert acc. induction l as [|x l IH]; intros acc H; simpl in *; [right; exact H|].
  destruct (IH _ H) as [Hl|Hacc]; [left; right; exact Hl|].
  unfold set_add in Hacc. destruct (existsb (str_eqb x) acc); [right; exact Hacc|].
  apply in_app_or in Hacc. destruct Hacc as [Hacc|[<-|[]]]; [right; exact Hacc|].
  left; left; reflexivity.
Qed.

Lemma words_of_occurs (t w : str) :
  In w (words_of t) -> occurs (toLowerCase w) (toLowerCase t).
Proof.
  unfold words_of. intro H. apply filter_In in H. destruct H as [H _].
  apply in_map_iff in H. destruct H as [tok [<- Htok]].
  rewrite toLowerCase_idem. apply occurs_map_lower.
  apply (occurs_trans _ tok); [apply trim_occurs|apply split_ws_occurs; exact Htok].
Qed.

(** The base chosen by the first loop. *)
Lemma select_fold_inv (l : list result) (b : str) :
  fold_left select_step l (b, length b) =
  (fst (fold_left select_step l (b, length b)),
   length (fst (fold_left select_step l (b, length b)))).
Proof.
  revert b. induction l as [|q l IH]; intro b; simpl; [reflexivity|].
  destruct (truthy (text q) && (length b <? length (text q))); apply IH.
Qed.

Lemma select_fold_lt (l : list result) (b : str) (n : nat) :
  (forall q, In q l -> length (text q) < n) -> length b < n ->
  length (fst (fold_left select_step l (b, length b))) < n.
Proof.
  revert b. induction l as [|q l IH]; intros b Hl Hb; simpl; [exact Hb|].
  destruct (truthy (text q) && (length b <? length (text q))).
  - apply IH; [intros q' Hq'; apply Hl; right; exact Hq'|apply Hl; left; reflexivity].
  - apply IH; [intros q' Hq'; apply Hl; right; exact Hq'|exact Hb].
Qed.

Lemma select_fold_keep (l : list result) (b : str) :
  (forall q, In q l -> length (text q) <= length b) ->
  fold_left select_step l (b, length b) = (b, length b).
Proof.
  revert b. induction l as [|q l IH]; intros b Hl; simpl; [reflexivity|].
  assert (E : (length b <? length (text q)) = false).
  { apply Nat.ltb_ge. apply Hl. left. reflexivity. }
  rewrite E, andb_false_r. apply IH. intros q' Hq'. apply Hl. right. exact Hq'.
Qed.

Lemma select_base_first_longest (pre post : list result) (r : result) :
  truthy (text r) = true ->
  (forall q, In q pre -> length (text q) < length (text r)) ->
  (forall q, In q post -> length (text q) <= length (text r)) ->
  select_base (pre ++ r :: post) = text r.
Proof.
  intros Ht Hpre Hpost. unfold select_base. rewrite fold_left_app.
  assert (H := select_fold_inv pre []). assert (Hb := select_fold_lt pre [] (length (text r)) Hpre).
  simpl length in H, Hb.
  change (@pair (list ascii) nat [] 0) with (@pair str nat [] 0).
  destruct (fold_left select_step pre (@pair str nat [] 0)) as [b m]. simpl in Hb.
  injection H as Hm. subst m.
  assert (Hlt : length b < length (text r)).
  { apply Hb. destruct (text r); [discriminate|simpl; lia]. }
  simpl. rewrite Ht. apply Nat.ltb_lt in Hlt. rewrite Hlt. simpl.
  rewrite select_fold_keep; [reflexivity|exact Hpost].
Qed.

End FusionFacts.

(** C3: the fused text keeps every white-space separated token of the
    longest input, i.e. of the first result whose text is longer than the
    texts before it and not shorter than the texts after it (the base the
    fusion selects). *)
Theorem fusion_keeps_longest_tokens (pre post : list Fusion.result) (r : Fusion.result)
  (Hpre : forall q, In q pre -> length (Fusion.text q) < length (Fusion.text r))
  (Hpost : forall q, In q post -> length (Fusion.text q) <= length (Fusion.text r)) :
  forall tok, In tok (split_ws (Fusion.text r)) ->
  StrFacts.occurs tok (Fusion.combineOcrResults (pre ++ r :: post)).
Proof.
  intros tok Htok.
  destruct (Fusion.text r) as [|c t] eqn:Er.
  - apply StrFacts.split_ws_nil in Htok. subst tok.
    exists [], (Fusion.combineOcrResults (pre ++ r :: post)). reflexivity.
  - unfold Fusion.combineOcrResults.
    rewrite FusionFacts.select_base_first_longest;
      [| rewrite Er; reflexivity | rewrite Er; exact Hpre | rewrite Er; exact Hpost].
    destruct (FusionFacts.append_fold_prefix
                (Fusion.all_words (pre ++ r :: post)) (Fusion.text r)) as [suf ->].
    apply StrFacts.occurs_app_r. rewrite Er.
    apply StrFacts.split_ws_occurs. exact Htok.
Qed.

(** C4: fusing a single result returns its text unchanged. *)
Theorem fusion_singleton (r : Fusion.result) :
  Fusion.combineOcrResults [r] = Fusion.text r.
Proof.
  unfold Fusion.combineOcrResults, Fusion.all_words, Fusion.select_base. simpl.
  unfold Fusion.collect_step.
  destruct (truthy (Fusion.text r)) eqn:Et.
  - destruct (Fusion.text r) as [|c t] eqn:Er; [discriminate|]. simpl.
    apply FusionFacts.append_fold_id. intros w Hw.
    apply FusionFacts.set_add_fold_in in Hw. destruct Hw as [Hw|[]].
    apply StrFacts.includes_occurs. rewrite <- Er.
    apply FusionFacts.words_of_occurs. rewrite Er. exact Hw.
  - destruct (Fusion.text r) as [|c t]; [reflexivity|discriminate].
Qed.

(* ------------------------------------------------------------------ *)
(** ** Text normalisation *)

Module NormalizeFacts.
Import Normalize.

Lemma postprocess_trimmed (t : str) :
  postprocessText t = [] \/ exists z, postprocessText t = trim z.
Proof.
  unfold postprocessText. destruct (negb (truthy t)); [left; reflexivity|].
  right. eexists. reflexivity.
Qed.

End NormalizeFacts.

(** C5 (as the code does it): the normalisation of
    [enhanceAndRecognizeText], [postprocessText] and then the effective
    [enhanceIngredientText] ([cleanBasicText]), is not idempotent. On
    [a,b,c] the global replacement of [/([a-z]),([a-z])/gi] consumes [b]
    with the first comma and so misses the second one: one run gives
    [a, b,c], a second run [a, b, c]. *)
Theorem normalize_not_idempotent :
  Orchestrator.normalize (s2l "a,b,c") = s2l "a, b,c" /\
  Orchestrator.normalize (Orchestrator.normalize (s2l "a,b,c")) = s2l "a, b, c".
Proof. split; vm_compute; reflexivity. Qed.

(** C5 fails: the normalisation is not idempotent. *)
Lemma normalize_idempotence_fails :
  ~ (forall t, Orchestrator.normalize (Orchestrator.normalize t) = Orchestrator.normalize t).
Proof. intro H. specialize (H (s2l "a,b,c")). vm_compute in H. discriminate H. Qed.

(** Scenario of the spec: the first normalisation step on an OCR text. *)
Example postprocess_scenario :
  Normalize.postprocessText (s2l "lngredients: c0rn starch, g1uten, sall")
  = s2l "Ingredients: corn starch, gluten, salt".
Proof. vm_compute. reflexivity. Qed.

(** C8: on an empty, [null] or [undefined] input both normalisation steps,
    [postprocessText] and the effective [enhanceIngredientText]
    ([cleanBasicText]), return the empty string; both are total functions
    here, as neither can raise on these inputs. *)
Theorem normalize_steps_on_missing_input :
  Normalize.postprocessText_js JUndefined = JString [] /\
  Normalize.postprocessText_js JNull = JString [] /\
  Normalize.postprocessText_js (JString []) = JString [] /\
  Minimal.enhanceIngredientText_js JUndefined = JString [] /\
  Minimal.enhanceIngredientText_js JNull = JString [] /\
  Minimal.enhanceIngredientText_js (JString []) = JString [].
Proof. repeat split. Qed.

(* ------------------------------------------------------------------ *)
(** ** Adaptive threshold *)

Module ThresholdFacts.
Import Preprocess.

Lemma set_nth_length (d : list Z) (i : nat) (v : Z) : length (set_nth d i v) = length d.
Proof.
  revert i. induction d as [|a d IH]; intros [|i]; simpl; auto.
Qed.

Lemma nth_set_nth_eq (d : list Z) (i : nat) (v : Z) :
  i < length d -> nth i (set_nth d i v) 0%Z = v.
Proof.
  revert i. induction d as [|a d IH]; intros [|i] H; simpl in *; try lia; auto.
  all: apply IH; lia.
Qed.

Lemma nth_set_nth_neq (d : list Z) (i j : nat) (v : Z) :
  i <> j -> nth i (set_nth d j v) 0%Z = nth i d 0%Z.
Proof.
  revert i j. induction d as [|a d IH]; intros [|i] [|j] H; simpl; auto; try lia.
  all: apply IH; lia.
Qed.






Lemma seq_split (a n : nat) : a < n -> List.seq 0 n = List.seq 0 a ++ a :: List.seq (S a) (n - S a).
Proof.
  intro H. replace n with (a + S (n - S a)) at 1 by lia.
  rewrite seq_app. reflexivity.
Qed.

(** The pixels visited after [(x, y)]. *)
Definition after (w h x y : nat) : list (nat * nat) :=
  map (fun x' => (x', y)) (List.seq (S x) (w - S x))
  ++ flat_map (row w) (List.seq (S y) (h - S y)).

Lemma coords_split (w h x y : nat) :
  x < w -> y < h -> coords w h = before w x y ++ (x, y) :: after w h x y.
Proof.
  intros Hx Hy. unfold coords, before, after.
  rewrite (seq_split y h Hy), flat_map_app. simpl.
  unfold row at 2. rewrite (seq_split x w Hx), map_app. simpl.
  rewrite <- !app_assoc. reflexivity.
Qed.

Lemma after_disjoint (w h x y : nat) (p : nat * nat) (k k' : nat) :
  x < w -> In p (after w h x y) -> k < 3 -> k' < 3 ->
  pixel_index w (fst p) (snd p) + k' <> pixel_index w x y + k.
Proof.
  intros Hx Hp Hk Hk'. unfold after in Hp. unfold pixel_index.
  apply in_app_or in Hp. destruct Hp as [Hp|Hp].
  - apply in_map_iff in Hp. destruct Hp as [x' [<- Hx']].
    apply in_seq in Hx'. simpl. lia.
  - apply in_flat_map in Hp. destruct Hp as [y' [Hy' Hp]].
    apply in_seq in Hy'. unfold row in Hp. apply in_map_iff in Hp.
    destruct Hp as [x' [<- Hx']]. apply in_seq in Hx'. simpl.
    assert (y' * w >= y * w + w) by nia. lia.
Qed.

End ThresholdFacts.



(* ------------------------------------------------------------------ *)
(** ** Size limit of [getImageData] *)

(** C9 (as the code does it): a canvas source is returned at its own size,
    whatever its size: a 2400 x 1800 canvas keeps the larger side 2400,
    while an image element of that size is drawn at 1500 x 1125. *)
Theorem canvas_kept_size :
  Preprocess.getImageData_dims (Preprocess.SrcCanvas 2400 1800) = (2400, 1800)%Q /\
  (fst (Preprocess.getImageData_dims (Preprocess.SrcImg 2400 1800 2400 1800)) == 1500 /\
   snd (Preprocess.getImageData_dims (Preprocess.SrcImg 2400 1800 2400 1800)) == 1125)%Q.
Proof. repeat split; vm_compute; reflexivity. Qed.

(** In double precision the larger side of a downscaled image need not be
    1500: a 2147 x 1000 image is drawn 1499.9999999999998 wide. *)
Example downscale_rounding :
  (fst (Preprocess.getImageData_dims (Preprocess.SrcImg 2147 1000 2147 1000))
   == 6597069766655999 # 4398046511104 /\
   fst (Preprocess.getImageData_dims (Preprocess.SrcImg 2147 1000 2147 1000)) < 1500)%Q.
Proof. split; vm_compute; reflexivity. Qed.

(** A 1001 x 2000 image is drawn 750.75 wide, and the threshold loop's
    byte index of pixel [(0, 1)] is then 3003, an alpha byte. *)
Example fractional_width_index :
  (fst (Preprocess.getImageData_dims (Preprocess.SrcImg 1001 2000 1001 2000)) == 3003 # 4 /\
   Preprocess.index_js (3003 # 4) 0 1 == 3003)%Q.
Proof. split; vm_compute; reflexivity. Qed.

(** C9 fails as stated: a 2400 x 1800 canvas keeps its size. *)
Lemma canvas_not_downscaled :
  ~ (forall src w h,
       match src with
       | Preprocess.SrcCanvas cw ch => (cw, ch)
       | Preprocess.SrcImg nw nh iw ih => (Preprocess.or_num nw iw, Preprocess.or_num nh ih)
       | Preprocess.SrcUrl uw uh => (uw, uh)
       end = (w, h) ->
       (0 < w)%Q -> (0 < h)%Q ->
       (Preprocess.MAX_SIZE < w \/ Preprocess.MAX_SIZE < h)%Q ->
       (Qmax (fst (Preprocess.getImageData_dims src))
             (snd (Preprocess.getImageData_dims src)) == Preprocess.MAX_SIZE)%Q).
Proof.
  intro H.
  specialize (H (Preprocess.SrcCanvas 2400 1800) 2400%Q 1800%Q eq_refl).
  assert (E : (Qmax 2400 1800 == Preprocess.MAX_SIZE)%Q).
  { apply H; [reflexivity|reflexivity|left; reflexivity]. }
  vm_compute in E. discriminate E.
Qed.

(* ------------------------------------------------------------------ *)
(** ** Multi-pass recognition *)

Module OrchestratorFacts.
Import Orchestrator.

Definition outcome_list {A} (o : outcome A) : list A :=
  match o with Ok a => [a] | Throw _ => [] end.

Lemma outcome_list_ext {A} (o o' : outcome A) :
  (forall a, o = Ok a <-> o' = Ok a) -> outcome_list o = outcome_list o'.
Proof.
  intro H. destruct o as [a|e], o' as [a'|e']; simpl.
  - destruct (H a) as [H1 _]. injection (H1 eq_refl) as ->. reflexivity.
  - destruct (H a) as [H1 _]. discriminate (H1 eq_refl).
  - destruct (H a') as [_ H1]. discriminate (H1 eq_refl).
  - reflexivity.
Qed.

Lemma run_passes_spec (image : Type) (performOCR : option image -> options -> outcome Fusion.result)
  (processed : list image) (log : list (call image)) :
  run_passes image performOCR processed log =
  (Ok (outcome_list (performOCR (nth_error processed 0) opts1)
       ++ outcome_list (performOCR (nth_error processed 1) opts2)),
   log ++ [(nth_error processed 0, opts1); (nth_error processed 1, opts2)]).
Proof.
  unfold run_passes, run_pass, mbind, try_catch, ocr_call, ret.
  destruct (performOCR (nth_error processed 0) opts1);
  destruct (performOCR (nth_error processed 1) opts2);
  simpl; rewrite <- app_assoc; reflexivity.
Qed.

End OrchestratorFacts.

(** C7: the recognition passes are isolated. Once preprocessing has
    produced its images, both passes are run whatever the engine does, the
    result set holds exactly the passes that returned, in pass order, and
    the outcome of [enhanceAndRecognizeText] depends on the engine only
    through the passes that returned: an engine exception is never
    propagated. *)
Theorem passes_isolated (image : Type) (correctImageOrientation : image -> image)
  (preprocessImage : image -> outcome (list image))
  (performOCR : option image -> Orchestrator.options -> outcome Fusion.result)
  (img : image) (processed : list image)
  (Hpre : preprocessImage (correctImageOrientation img) = Ok processed) :
  Orchestrator.run_passes image performOCR processed [] =
    (Ok (OrchestratorFacts.outcome_list
           (performOCR (nth_error processed 0) Orchestrator.opts1)
         ++ OrchestratorFacts.outcome_list
           (performOCR (nth_error processed 1) Orchestrator.opts2)),
     [(nth_error processed 0, Orchestrator.opts1);
      (nth_error processed 1, Orchestrator.opts2)]) /\
  (forall performOCR' : option image -> Orchestrator.options -> outcome Fusion.result,
     (forall i o r, performOCR i o = Ok r <-> performOCR' i o = Ok r) ->
     fst (Orchestrator.enhanceAndRecognizeText image correctImageOrientation
            preprocessImage performOCR img []) =
     fst (Orchestrator.enhanceAndRecognizeText image correctImageOrientation
            preprocessImage performOCR' img [])).
Proof.
  split; [apply OrchestratorFacts.run_passes_spec|].
  intros performOCR' Heq.
  unfold Orchestrator.enhanceAndRecognizeText, Orchestrator.try_catch,
    Orchestrator.mbind, Orchestrator.lift.
  rewrite Hpre. cbv beta iota.
  rewrite !OrchestratorFacts.run_passes_spec.
  rewrite (OrchestratorFacts.outcome_list_ext
             (performOCR (nth_error processed 0) Orchestrator.opts1)
             (performOCR' (nth_error processed 0) Orchestrator.opts1)) by apply Heq.
  rewrite (OrchestratorFacts.outcome_list_ext
             (performOCR (nth_error processed 1) Orchestrator.opts2)
             (performOCR' (nth_error processed 1) Orchestrator.opts2)) by apply Heq.
  reflexivity.
Qed.

(* ------------------------------------------------------------------ *)
(** ** Concrete instances *)

Module Samples.

Definition wheat : Safety.flagged := Safety.Build_flagged (s2l "wheat starch") (9 # 10).
Definition oats : Safety.flagged := Safety.Build_flagged (s2l "oats") (3 # 10).

(** Scenario of the spec: wheat starch at 0.9 on a "gluten free" input. *)
Definition scan_unsafe : Safety.data :=
  Safety.Build_data true (s2l "Looks fine.") (Some [wheat]).
Definition scan_caution : Safety.data :=
  Safety.Build_data true (s2l "Looks fine.") (Some [oats]).
Definition scan_not_gf : Safety.data :=
  Safety.Build_data false (s2l "Contains wheat.") None.

Definition res (t : string) (c : Q) : Fusion.result := Fusion.Build_result (s2l t) c.

(** A 2 x 1 RGBA buffer. *)
Definition buf : list Z := [10; 10; 10; 255; 200; 200; 200; 255]%Z.

(** An engine that fails on the first pass. *)
Definition engine (i : option nat) (_ : Orchestrator.options) : outcome Fusion.result :=
  match i with
  | Some 0 => Throw (EngineError 7)
  | _ => Ok (res "ingredients: water" 90)
  end.

Definition prep (i : nat) : outcome (list nat) := Ok [i; S i].

End Samples.

Lemma classify_unsafe_forces_false_witness :
  Safety.is_gluten_free (Safety.analyzeIngredientsForSafety Samples.scan_unsafe) = false /\
  Safety.message (Safety.analyzeIngredientsForSafety Samples.scan_unsafe) = Safety.msg_unsafe.
Proof.
  apply (classify_unsafe_forces_false Samples.scan_unsafe [Samples.wheat]).
  - reflexivity.
  - exists Samples.wheat. split; [left; reflexivity|reflexivity].
Defined.

Lemma classify_caution_keeps_verdict_witness :
  Safety.is_gluten_free (Safety.analyzeIngredientsForSafety Samples.scan_caution) = true /\
  Safety.message (Safety.analyzeIngredientsForSafety Samples.scan_caution) =
    Safety.msg_caution ++ Safety.msg_cross.
Proof.
  apply (classify_caution_keeps_verdict Samples.scan_caution [Samples.oats]).
  - reflexivity.
  - discriminate.
  - intros i [<-|[]]. vm_compute. discriminate.
Defined.

Lemma classify_monotone_unsafe_witness :
  Safety.is_gluten_free (Safety.analyzeIngredientsForSafety Samples.scan_not_gf) = false.
Proof. apply classify_monotone_unsafe. reflexivity. Defined.

Lemma fusion_keeps_longest_tokens_witness :
  StrFacts.occurs (s2l "WATER")
    (Fusion.combineOcrResults
       [Samples.res "salt" 40; Samples.res "INGREDIENTS WATER SALT" 60;
        Samples.res "sugar" 85]).
Proof.
  apply (fusion_keeps_longest_tokens [Samples.res "salt" 40] [Samples.res "sugar" 85]
           (Samples.res "INGREDIENTS WATER SALT" 60)).
  - intros q [<-|[]]. vm_compute. lia.
  - intros q [<-|[]]. vm_compute. lia.
  - vm_compute. right. left. reflexivity.
Defined.


Lemma passes_isolated_witness :
  Orchestrator.run_passes nat Samples.engine [0; 1] [] =
    (Ok (OrchestratorFacts.outcome_list (Samples.engine (Some 0) Orchestrator.opts1)
         ++ OrchestratorFacts.outcome_list (Samples.engine (Some 1) Orchestrator.opts2)),
     [(Some 0, Orchestrator.opts1); (Some 1, Orchestrator.opts2)]) /\
  (forall performOCR' : option nat -> Orchestrator.options -> outcome Fusion.result,
     (forall i o r, Samples.engine i o = Ok r <-> performOCR' i o = Ok r) ->
     fst (Orchestrator.enhanceAndRecognizeText nat (fun i => i) Samples.prep
            Samples.engine 0 []) =
     fst (Orchestrator.enhanceAndRecognizeText nat (fun i => i) Samples.prep
            performOCR' 0 [])).
Proof.
  apply (passes_isolated nat (fun i => i) Samples.prep Samples.engine 0 [0; 1]).
  reflexivity.
Defined.

(** With the first pass failing, the second pass still runs and only its
    result is kept; its text is normalised. *)
Example failing_pass_run :
  Orchestrator.enhanceAndRecognizeText nat (fun i => i) Samples.prep Samples.engine 0 [] =
  (Ok (Samples.res "Ingredients: water" 90),
   [(Some 0, Orchestrator.opts1); (Some 1, Orchestrator.opts2)]).
Proof. vm_compute. reflexivity. Qed.

(* ------------------------------------------------------------------ *)
(** ** Further properties of the pipeline *)

Module ExtraFacts.

Lemma prefixb_occurs (w s : str) : prefixb w s = true -> exists y, s = w ++ y.
Proof.
  revert s. induction w as [|c w IH]; intros s H; simpl in *.
  - exists s. reflexivity.
  - destruct s as [|d s]; [discriminate|]. apply andb_true_iff in H. destruct H as [Hc H].
    apply Ascii.eqb_eq in Hc. subst d. destruct (IH s H) as [y ->]. exists y. reflexivity.
Qed.

Lemma includes_occurs_inv (s w : str) : includes s w = true -> StrFacts.occurs w s.
Proof.
  induction s as [|c s IH]; intro H; simpl in H.
  - destruct w; [|discriminate]. exists [], []. reflexivity.
  - apply orb_true_iff in H. destruct H as [H|H].
    + destruct (prefixb_occurs w (c :: s) H) as [y E]. exists [], y. exact E.
    + destruct (IH H) as [x [y E]]. exists (c :: x), y. rewrite E. reflexivity.
Qed.

Lemma toLowerCase_app (a b : str) : toLowerCase (a ++ b) = toLowerCase a ++ toLowerCase b.
Proof. apply map_app. Qed.

End ExtraFacts.

Module FusionFacts2.
Import Fusion.

Lemma set_add_fold_keep (l acc : list str) (w : str) :
  In w acc -> In w (fold_left set_add l acc).
Proof.
  revert acc. induction l as [|x l IH]; intros acc H; simpl; [exact H|].
  apply IH. unfold set_add. destruct (existsb (str_eqb x) acc); [exact H|].
  apply in_or_app. left. exact H.
Qed.

Lemma str_eqb_true (a b : str) : str_eqb a b = true -> a = b.
Proof. unfold str_eqb. destruct (list_eq_dec ascii_dec a b); [auto|discriminate]. Qed.

Lemma set_add_fold_new (l acc : list str) (w : str) :
  In w l -> In w (fold_left set_add l acc).
Proof.
  revert acc. induction l as [|x l IH]; intros acc H; simpl; [destruct H|].
  destruct H as [->|H]; [|apply IH; exact H].
  apply set_add_fold_keep. unfold set_add.
  destruct (existsb (str_eqb w) acc) eqn:E.
  - apply existsb_exists in E. destruct E as [y [Hy Ey]].
    apply str_eqb_true in Ey. subst y. exact Hy.
  - apply in_or_app. right. left. reflexivity.
Qed.

Lemma words_of_nil : words_of [] = [].
Proof. reflexivity. Qed.

Lemma collect_fold_keep (l : list result) (acc : list str) (w : str) :
  In w acc -> In w (fold_left collect_step l acc).
Proof.
  revert acc. induction l as [|q l IH]; intros acc H; simpl; [exact H|].
  apply IH. unfold collect_step. destruct (truthy (text q)); [|exact H].
  apply set_add_fold_keep. exact H.
Qed.

Lemma collect_fold_new (l : list result) (acc : list str) (r : result) (w : str) :
  In r l -> In w (words_of (text r)) -> In w (fold_left collect_step l acc).
Proof.
  revert acc. induction l as [|q l IH]; intros acc Hr Hw; simpl; [destruct Hr|].
  destruct Hr as [->|Hr]; [|apply IH; assumption].
  apply collect_fold_keep. unfold collect_step.
  destruct (truthy (text r)) eqn:T.
  - apply set_add_fold_new. exact Hw.
  - destruct (text r); [rewrite words_of_nil in Hw; destruct Hw|discriminate].
Qed.

Lemma words_of_lower (t w : str) : In w (words_of t) -> toLowerCase w = w.
Proof.
  unfold words_of. intro H. apply filter_In in H. destruct H as [H _].
  apply in_map_iff in H. destruct H as [tok [<- _]]. apply StrFacts.toLowerCase_idem.
Qed.

Lemma append_step_occurs (b w : str) :
  StrFacts.occurs (toLowerCase w) (toLowerCase (append_step b w)).
Proof.
  unfold append_step. destruct (includes (toLowerCase b) (toLowerCase w)) eqn:E.
  - apply ExtraFacts.includes_occurs_inv. exact E.
  - rewrite !ExtraFacts.toLowerCase_app. exists (toLowerCase b ++ toLowerCase (s2l " ")), [].
    rewrite app_nil_r, <- app_assoc. reflexivity.
Qed.

Lemma append_fold_occurs (ws : list str) (b w : str) :
  In w ws -> StrFacts.occurs (toLowerCase w) (toLowerCase (fold_left append_step ws b)).
Proof.
  revert b. induction ws as [|x ws IH]; intros b H; simpl; [destruct H|].
  destruct H as [->|H]; [|apply IH; exact H].
  destruct (FusionFacts.append_fold_prefix ws (append_step b w)) as [suf ->].
  rewrite ExtraFacts.toLowerCase_app. apply StrFacts.occurs_app_r. apply append_step_occurs.
Qed.

Lemma select_fold_nil (l : list result) (b : str) :
  fst (fold_left select_step l (b, length b)) = [] -> b = [] /\ forall q, In q l -> text q = [].
Proof.
  revert b. induction l as [|q l IH]; intros b H; simpl in *.
  - split; [exact H|intros q []].
  - destruct (truthy (text q) && (length b <? length (text q))) eqn:E.
    + destruct (IH _ H) as [Hq _]. rewrite Hq in E. discriminate.
    + destruct (IH _ H) as [Hb Hl]. subst b. split; [reflexivity|].
      intros q' [->|Hq']; [|apply Hl; exact Hq'].
      destruct (text q') as [|c t]; [reflexivity|]. discriminate.
Qed.

Lemma combine_nil (l : list result) :
  combineOcrResults l = [] -> forall q, In q l -> text q = [].
Proof.
  unfold combineOcrResults. destruct (FusionFacts.append_fold_prefix (all_words l) (select_base l)) as [suf ->].
  intro H. apply app_eq_nil in H. destruct H as [H _].
  apply (select_fold_nil l []). exact H.
Qed.

End FusionFacts2.

(** X1: whenever [analyzeIngredientsForSafety] returns [is_gluten_free = true], its message ends with the cross-contamination disclaimer. *)
Theorem safety_gluten_free_has_disclaimer (d : Safety.data)
  (H : Safety.is_gluten_free (Safety.analyzeIngredientsForSafety d) = true) :
  exists p, Safety.message (Safety.analyzeIngredientsForSafety d) = p ++ Safety.msg_cross.
Proof.
  revert H. unfold Safety.analyzeIngredientsForSafety.
  set (d1 := match Safety.flagged_ingredients d with
             | Some l => _ | None => d end).
  destruct (Safety.is_gluten_free d1) eqn:E; simpl; [|rewrite E; discriminate].
  intros _. exists (Safety.message d1). reflexivity.
Qed.

(** X2: with [flagged_ingredients] absent or empty, [analyzeIngredientsForSafety] keeps the verdict and the flags, and only appends the disclaimer to the message when the verdict is gluten-free. *)
Theorem safety_without_flags (d : Safety.data)
  (H : Safety.flagged_ingredients d = None \/ Safety.flagged_ingredients d = Some []) :
  Safety.analyzeIngredientsForSafety d =
  {| Safety.is_gluten_free := Safety.is_gluten_free d;
     Safety.message := Safety.message d ++
                       (if Safety.is_gluten_free d then Safety.msg_cross else []);
     Safety.flagged_ingredients := Safety.flagged_ingredients d |}.
Proof.
  destruct d as [gf msg fl]. simpl in *.
  unfold Safety.analyzeIngredientsForSafety. simpl.
  destruct H as [->| ->]; simpl; destruct gf; simpl; rewrite ?app_nil_r; reflexivity.
Qed.

(** X3: every word longer than two characters of every input text of [combineOcrResults] (split on white space, lower-cased) occurs in the lower-cased combined text; shorter words may be dropped. *)
Theorem fusion_keeps_all_words (results : list Fusion.result) (r : Fusion.result)
  (Hr : In r results) :
  forall w, In w (Fusion.words_of (Fusion.text r)) ->
  StrFacts.occurs w (toLowerCase (Fusion.combineOcrResults results)).
Proof.
  intros w Hw. rewrite <- (FusionFacts2.words_of_lower _ _ Hw).
  apply FusionFacts2.append_fold_occurs.
  apply (FusionFacts2.collect_fold_new results [] r); assumption.
Qed.

(** X4: [postprocessText] returns a trimmed string: trimming its output changes nothing. *)
Theorem postprocess_output_trimmed (t : str) :
  trim (Normalize.postprocessText t) = Normalize.postprocessText t.
Proof.
  destruct (NormalizeFacts.postprocess_trimmed t) as [E|[z E]]; rewrite E;
    [reflexivity|apply StrFacts.trim_idem].
Qed.

Module FoodLabelFacts.
Import FoodLabel.

Definition key_ok (p : string * string) : bool :=
  match Normalize.key_body (s2l (fst p)) with Some _ => true | None => false end.

Lemma label_apply_replacements_throw_at (tbl1 tbl2 : list (string * string)) (e c : string) (s : str) :
  forallb key_ok tbl1 = true -> Normalize.key_body (s2l e) = None ->
  apply_replacements (tbl1 ++ (e, c) :: tbl2) s = Throw (SyntaxError (s2l e)).
Proof.
  revert s. induction tbl1 as [|[e' c'] tbl1 IH]; intros s Hok He; simpl.
  - unfold error_regex. rewrite He. reflexivity.
  - simpl in Hok. apply andb_true_iff in Hok. destruct Hok as [Hk Hok].
    unfold key_ok in Hk. simpl in Hk. unfold error_regex.
    destruct (Normalize.key_body (s2l e')); [|discriminate]. simpl. apply IH; assumption.
Qed.

Lemma label_replacements_split :
  replacements = firstn 24 replacements ++ ("lecithin)", "lecithin),")%string
                 :: skipn 25 replacements.
Proof. reflexivity. Qed.

Lemma label_apply_replacements_throws (s : str) :
  apply_replacements replacements s = Throw (SyntaxError (s2l "lecithin)")).
Proof.
  rewrite label_replacements_split. apply label_apply_replacements_throw_at; reflexivity.
Qed.

Lemma clean_spec (t : str) :
  cleanFoodLabelText t = if truthy t then Throw (SyntaxError (s2l "lecithin)")) else Ok [].
Proof.
  unfold cleanFoodLabelText. destruct (truthy t); [|reflexivity].
  cbv beta iota zeta. rewrite label_apply_replacements_throws. reflexivity.
Qed.

End FoodLabelFacts.

(** X6: [cleanFoodLabelText] returns the empty string on the empty string and throws the [SyntaxError] of [new RegExp('lecithin)', 'ig')] on every other text. *)
Theorem clean_label_text_throws (t : str) :
  FoodLabel.cleanFoodLabelText t =
  if truthy t then Throw (SyntaxError (s2l "lecithin)")) else Ok [].
Proof. apply FoodLabelFacts.clean_spec. Qed.

(** X7: when the first declaration of [performFoodLabelOCR] (lines 635-759) returns a result, its text is empty, at least one recognition pass succeeded, and every raw text of the passes is empty. *)
Theorem food_label_ocr_no_text (image : Type) (correctImageOrientation : image -> image)
  (preprocessFoodLabel : image -> outcome (list image))
  (recognize : option image -> list (string * string) -> outcome Fusion.result)
  (img : image) (r : FoodLabel.label_result)
  (H : FoodLabel.performFoodLabelOCR image correctImageOrientation preprocessFoodLabel
         recognize img = Ok r) :
  FoodLabel.label_text r = [] /\ FoodLabel.rawTexts r <> [] /\
  forall t, In t (FoodLabel.rawTexts r) -> t = [].
Proof.
  revert H. unfold FoodLabel.performFoodLabelOCR, bind.
  destruct (preprocessFoodLabel (correctImageOrientation img)) as [processed|e];
    cbv beta iota zeta; [|discriminate].
  rewrite !FoodLabelFacts.clean_spec.
  set (results := FoodLabel.run_pass image recognize
                    (FoodLabel.run_pass image recognize
                       (FoodLabel.run_pass image recognize [] (nth_error processed 0)
                          FoodLabel.pass_opts1)
                       (nth_error processed 1) FoodLabel.pass_opts2)
                    (nth_error processed 2) FoodLabel.pass_opts3).
  destruct (truthy (FoodLabel.pick_best (map Fusion.text results))) eqn:B;
    cbn [negb andb].
  - rewrite B. discriminate.
  - destruct (0 <? length results) eqn:L; cbn [negb andb].
    + destruct (truthy (Fusion.combineOcrResults results)) eqn:C; [discriminate|].
      intro H. injection H as <-. cbn. split; [reflexivity|split].
      * apply Nat.ltb_lt in L. destruct results; [simpl in L; lia|discriminate].
      * intros t Ht. apply in_map_iff in Ht. destruct Ht as [q [<- Hq]].
        apply (FusionFacts2.combine_nil results); [|exact Hq].
        destruct (Fusion.combineOcrResults results); [reflexivity|discriminate].
    + discriminate.
Qed.

Module DetectFacts.
Import Detect.
Local Open Scope Q_scope.

Lemma floor_to_nat_le (q : Q) (n : nat) : q <= qn n -> (Z.to_nat (Qfloor q) <= n)%nat.
Proof.
  intro H. apply Qfloor_resp_le in H. unfold qn in H. rewrite Qfloor_Z in H. lia.
Qed.

Lemma qn_pos (n : nat) : (0 < n)%nat -> 0 < qn n.
Proof.
  intro H. unfold qn, Qlt. simpl. lia.
Qed.

Lemma qn_nonneg (n : nat) : 0 <= qn n.
Proof. unfold qn, Qle. simpl. lia. Qed.

Lemma mul_ratio (M n : nat) : (0 < n)%nat -> qn n * (qn M / qn n) == qn M.
Proof.
  intro H. apply Qmult_div_r. intro E. apply (Qlt_irrefl 0).
  rewrite <- E at 2. apply qn_pos. exact H.
Qed.

Lemma side_bounded (M n o : nat) :
  qn n * min_scale M n o <= qn M /\ qn o * min_scale M n o <= qn M.
Proof.
  unfold min_scale. destruct n as [|n'], o as [|o'].
  - split; unfold qn; simpl; rewrite Qmult_0_l; apply qn_nonneg.
  - split; [unfold qn; simpl; rewrite Qmult_0_l; apply qn_nonneg|].
    rewrite mul_ratio by lia. apply Qle_refl.
  - split; [rewrite mul_ratio by lia; apply Qle_refl|].
    unfold qn at 1; simpl; rewrite Qmult_0_l; apply qn_nonneg.
  - split.
    + apply Qle_trans with (qn (S n') * (qn M / qn (S n'))).
      * apply (Qmult_le_l _ _ _ (qn_pos (S n') ltac:(lia))). apply Q.le_min_l.
      * rewrite mul_ratio by lia. apply Qle_refl.
    + apply Qle_trans with (qn (S o') * (qn M / qn (S o'))).
      * apply (Qmult_le_l _ _ _ (qn_pos (S o') ltac:(lia))). apply Q.le_min_r.
      * rewrite mul_ratio by lia. apply Qle_refl.
Qed.

Lemma floor_limit_bounded (M w h : nat) :
  let '(_, w', h') := floor_limit M w h in (w' <= M)%nat /\ (h' <= M)%nat.
Proof.
  unfold floor_limit.
  destruct ((M <? w)%nat || (M <? h)%nat) eqn:E.
  - destruct (side_bounded M w h) as [H1 H2].
    split; apply floor_to_nat_le; assumption.
  - apply orb_false_iff in E. destruct E as [E1 E2].
    apply Nat.ltb_ge in E1, E2. split; assumption.
Qed.



End DetectFacts.

Module OptionFacts.
Import PerformOCR.

Lemma obj_get_set (o : obj) (k k' : string) (v : value) :
  obj_get (obj_set o k v) k' = if String.eqb k k' then Some v else obj_get o k'.
Proof.
  induction o as [|[k0 v0] o IH]; simpl.
  - destruct (String.eqb k k'); reflexivity.
  - destruct (String.eqb k0 k) eqn:E0.
    + apply String.eqb_eq in E0. subst k0. simpl.
      destruct (String.eqb k k'); reflexivity.
    + simpl. rewrite IH. destruct (String.eqb k0 k') eqn:E1, (String.eqb k k') eqn:E2;
        try reflexivity.
      apply String.eqb_eq in E1, E2. subst. rewrite String.eqb_refl in E0. discriminate.
Qed.

Lemma obj_get_none (o : obj) (k : string) : ~ In k (map fst o) -> obj_get o k = None.
Proof.
  induction o as [|[k0 v0] o IH]; intro H; simpl; [reflexivity|].
  simpl in H. destruct (String.eqb k0 k) eqn:E.
  - apply String.eqb_eq in E. subst. exfalso. apply H. left. reflexivity.
  - apply IH. intro H'. apply H. right. exact H'.
Qed.

Lemma obj_get_spread (t src : obj) (k : string) :
  NoDup (map fst src) ->
  obj_get (spread t src) k =
  match obj_get src k with Some v => Some v | None => obj_get t k end.
Proof.
  revert t. induction src as [|[k0 v0] src IH]; intros t Hnd; [reflexivity|].
  inversion Hnd as [|? ? Hnin Hnd']; subst.
  change (spread t ((k0, v0) :: src)) with (spread (obj_set t k0 v0) src).
  rewrite IH by exact Hnd'. rewrite obj_get_set. simpl.
  destruct (String.eqb k0 k) eqn:E.
  - apply String.eqb_eq in E. subst k0. rewrite obj_get_none by exact Hnin. reflexivity.
  - reflexivity.
Qed.

End OptionFacts.

(** X9: in the options passed to the engine by [performOCR], [logger] is always the progress callback, and any other key takes the caller's value when given, else the default. *)
Theorem final_options_lookup (options : PerformOCR.obj)
  (Hnd : NoDup (map fst options)) :
  PerformOCR.obj_get (PerformOCR.finalOptions options) "logger"%string = Some PerformOCR.VLogger /\
  forall k, k <> "logger"%string ->
  PerformOCR.obj_get (PerformOCR.finalOptions options) k =
  match PerformOCR.obj_get options k with
  | Some v => Some v
  | None => PerformOCR.obj_get PerformOCR.defaultOptions k
  end.
Proof.
  unfold PerformOCR.finalOptions. split.
  - rewrite OptionFacts.obj_get_set. reflexivity.
  - intros k Hk. rewrite OptionFacts.obj_get_set.
    destruct (String.eqb "logger" k) eqn:E; [apply String.eqb_eq in E; congruence|].
    rewrite OptionFacts.obj_get_spread by exact Hnd.
    rewrite OptionFacts.obj_get_spread by (vm_compute; repeat constructor; simpl; intuition discriminate).
    destruct (PerformOCR.obj_get options k); [reflexivity|].
    destruct (PerformOCR.obj_get PerformOCR.defaultOptions k); reflexivity.
Qed.

Lemma round_range (p c : Q) (H0 : (0 <= p)%Q) (H1 : (p <= 1)%Q) (Hc : (0 <= c)%Q) :
  (Qfloor (1 # 2) <= Qfloor (p * c + (1 # 2)) <= Qfloor (c + (1 # 2)))%Z.
Proof.
  split; apply Qfloor_resp_le.
  - rewrite <- (Qplus_0_l (1 # 2)) at 1. apply Qplus_le_l.
    apply Qmult_le_0_compat; assumption.
  - apply Qplus_le_l. rewrite <- (Qmult_1_l c) at 2.
    apply Qmult_le_compat_r; assumption.
Qed.

(** X10: for a progress value between 0 and 1, the displayed percentage of [performOCR] lies between 0 and 100 and the overall bar width between 50 and 80. *)
Theorem progress_percent_range (p : Q) (H : (0 <= p <= 1)%Q) :
  (0 <= PerformOCR.percent p <= 100)%Z /\ (50 <= PerformOCR.overallPercent p <= 80)%Z.
Proof.
  unfold PerformOCR.overallPercent, PerformOCR.percent, PerformOCR.Math_round.
  destruct H as [H0 H1].
  pose proof (round_range p 100 H0 H1 ltac:(discriminate)) as A.
  pose proof (round_range p 30 H0 H1 ltac:(discriminate)) as B.
  assert (E0 : Qfloor (1 # 2) = 0%Z) by reflexivity.
  assert (E1 : Qfloor (100 + (1 # 2)) = 100%Z) by reflexivity.
  assert (E2 : Qfloor (30 + (1 # 2)) = 30%Z) by reflexivity.
  rewrite E0, E1 in A. rewrite E0, E2 in B. split; lia.
Qed.

(** X11: [detectIfFoodLabel] (first declaration) answers false when recognition throws, and true when the recognized text contains a word whose lower case is one of the food keywords. *)
Theorem food_label_detection (recognize : nat -> nat -> outcome str)
  (nw w nh h : nat) (s : Q) (w' h' : nat)
  (Hlim : Detect.floor_limit 600 (Detect.or_nat nw w) (Detect.or_nat nh h) = (s, w', h')) :
  (forall e, recognize w' h' = Throw e -> Detect.detectIfFoodLabel recognize nw w nh h = false) /\
  (forall t u, recognize w' h' = Ok t -> In (toLowerCase u) Detect.foodKeywords ->
     StrFacts.occurs u t -> Detect.detectIfFoodLabel recognize nw w nh h = true).
Proof.
  unfold Detect.detectIfFoodLabel. rewrite Hlim. split.
  - intros e He. rewrite He. reflexivity.
  - intros t u Ht Hk Hu. rewrite Ht. apply existsb_exists.
    exists (toLowerCase u). split; [exact Hk|].
    apply StrFacts.includes_occurs. apply StrFacts.occurs_map_lower. exact Hu.
Qed.

(** X12: the canvas downscaling of [correctImageOrientation], [detectIngredientsSection] and [detectIfFoodLabel] never yields a side longer than the limit. *)
Theorem sample_canvas_bounded (MAX_SIZE width height : nat) :
  let '(_, w, h) := Detect.floor_limit MAX_SIZE width height in
  w <= MAX_SIZE /\ h <= MAX_SIZE.
Proof. apply DetectFacts.floor_limit_bounded. Qed.

(** X13: when [correctImageOrientation] rotates, the angle is non-zero and both sides of the rotated canvas are at most 1500. *)
Theorem orientation_rotated_canvas (detect : nat -> nat -> outcome (option Q))
  (nw w nh h rw rh : nat) (a : Q)
  (H : Detect.correctImageOrientation detect nw w nh h = Detect.Rotated rw rh a) :
  ~ (a == 0)%Q /\ rw <= 1500 /\ rh <= 1500.
Proof.
  revert H. unfold Detect.correctImageOrientation.
  pose proof (DetectFacts.floor_limit_bounded 1500 (Detect.or_nat nw w) (Detect.or_nat nh h)) as B.
  destruct (Detect.floor_limit 1500 (Detect.or_nat nw w) (Detect.or_nat nh h)) as [[s sw] sh].
  destruct B as [B1 B2].
  destruct (detect sw sh) as [[angle|]|e]; try discriminate.
  destruct (Qeq_bool angle 0) eqn:Z0; [discriminate|].
  assert (Na : ~ (angle == 0)%Q) by (intro E; apply Qeq_bool_iff in E; congruence).
  destruct (Qeq_bool (Qabs angle) 90 || Qeq_bool (Qabs angle) 270);
    intro H; injection H as <- <- <-; repeat split; assumption.
Qed.


Module PassFacts.
Import Preprocess Passes ThresholdFacts.

Lemma chunk_rows_seq (height : nat) :
  forall fuel c, height - c < fuel -> chunk_rows fuel height c = List.seq c (height - c).
Proof.
  induction fuel as [|f IH]; intros c Hf; [lia|]. simpl.
  destruct (c <? height) eqn:Hc.
  - apply Nat.ltb_lt in Hc. rewrite IH by (unfold CHUNK_SIZE; lia).
    unfold CHUNK_SIZE.
    destruct (Nat.le_gt_cases (c + 50) height) as [L|L].
    + rewrite Nat.min_l by lia. replace (c + 50 - c) with 50 by lia.
      replace (height - c) with (50 + (height - (c + 50))) by lia.
      rewrite seq_app. reflexivity.
    + rewrite Nat.min_r by lia. replace (height - (c + 50)) with 0 by lia.
      rewrite app_nil_r. reflexivity.
  - apply Nat.ltb_ge in Hc. replace (height - c) with 0 by lia. reflexivity.
Qed.

Lemma pixels_coords (w h : nat) : pixels w h = coords w h.
Proof.
  unfold pixels, coords, rows. rewrite chunk_rows_seq by lia.
  rewrite Nat.sub_0_r. reflexivity.
Qed.

Lemma px_step_length value w d p : length (px_step value w d p) = length d.
Proof. destruct p. unfold px_step, write_px. rewrite !set_nth_length. reflexivity. Qed.

Lemma px_step_other value w d p i :
  (forall k, k < 3 -> pixel_index w (fst p) (snd p) + k <> i) ->
  nth i (px_step value w d p) 0%Z = nth i d 0%Z.
Proof.
  destruct p as [x y]. simpl. intro H. unfold write_px.
  rewrite nth_set_nth_neq by (intro E; apply (H 0); lia).
  rewrite nth_set_nth_neq by (intro E; apply (H 1); lia).
  rewrite nth_set_nth_neq by (intro E; apply (H 2); lia).
  reflexivity.
Qed.

Lemma px_step_here value w d x y k :
  k < 3 -> pixel_index w x y + 2 < length d ->
  nth (pixel_index w x y + k) (px_step value w d (x, y)) 0%Z = value d x y.
Proof.
  intros Hk Hl. unfold px_step, write_px.
  assert (k = 0 \/ k = 1 \/ k = 2) as [ -> | [ -> | -> ] ] by lia.
  - rewrite Nat.add_0_r. apply nth_set_nth_eq. rewrite !set_nth_length. lia.
  - rewrite nth_set_nth_neq by lia. apply nth_set_nth_eq. rewrite set_nth_length. lia.
  - rewrite !nth_set_nth_neq by lia. apply nth_set_nth_eq. lia.
Qed.

Lemma fold_px_other value w l d i :
  (forall p, In p l -> forall k, k < 3 -> pixel_index w (fst p) (snd p) + k <> i) ->
  nth i (fold_left (px_step value w) l d) 0%Z = nth i d 0%Z.
Proof.
  revert d. induction l as [|p l IH]; intros d H; simpl; [reflexivity|].
  rewrite IH by (intros q Hq; apply H; right; exact Hq).
  apply px_step_other. apply H. left. reflexivity.
Qed.

Lemma fold_px_length value w l d :
  length (fold_left (px_step value w) l d) = length d.
Proof.
  revert d. induction l as [|p l IH]; intro d; simpl; [reflexivity|].
  rewrite IH. apply px_step_length.
Qed.

Lemma before_disjoint (w x y : nat) (p : nat * nat) (k k' : nat) :
  x < w -> In p (before w x y) -> k < 3 -> k' < 3 ->
  pixel_index w (fst p) (snd p) + k' <> pixel_index w x y + k.
Proof.
  intros Hx Hp Hk Hk'. unfold before in Hp. unfold pixel_index.
  apply in_app_or in Hp. destruct Hp as [Hp|Hp].
  - apply in_flat_map in Hp. destruct Hp as [y' [Hy' Hp]].
    apply in_seq in Hy'. unfold row in Hp. apply in_map_iff in Hp.
    destruct Hp as [x' [<- Hx']]. apply in_seq in Hx'. simpl.
    assert (y' * w + w <= y * w) by nia. lia.
  - apply in_map_iff in Hp. destruct Hp as [x' [<- Hx']].
    apply in_seq in Hx'. simpl. lia.
Qed.

Lemma alpha_untouched (w : nat) (p : nat * nat) (x y k' : nat) :
  k' < 3 -> pixel_index w (fst p) (snd p) + k' <> pixel_index w x y + 3.
Proof. intro Hk. unfold pixel_index. lia. Qed.

(** The value written at pixel [(x, y)] by any pass, and its alpha channel. *)
Lemma run_pixel value w h d x y k :
  x < w -> y < h -> k < 4 -> length d = 4 * (w * h) ->
  nth (pixel_index w x y + k) (run value w h d) 0%Z =
  if k <? 3 then value (fold_left (px_step value w) (before w x y) d) x y
  else nth (pixel_index w x y + k) d 0%Z.
Proof.
  intros Hx Hy Hk Hlen. unfold run. rewrite pixels_coords.
  destruct (k <? 3) eqn:K.
  - apply Nat.ltb_lt in K.
    rewrite (coords_split w h x y Hx Hy), fold_left_app. simpl.
    rewrite fold_px_other.
    + apply px_step_here; [exact K|].
      rewrite fold_px_length, Hlen. unfold pixel_index.
      assert (y * w + w <= h * w) by nia. lia.
    + intros p Hp k' Hk'. apply (after_disjoint w h x y p k k' Hx Hp K Hk').
  - apply Nat.ltb_ge in K. replace k with 3 by lia.
    apply fold_px_other. intros p _ k' Hk'. apply alpha_untouched. exact Hk'.
Qed.

End PassFacts.

(** X16: for a buffer of whole-number width and height (a canvas source, or an image that is not downscaled to a fractional side), a fixed-threshold pass sets each colour channel of a pixel to 255 when the pixel's original luminance exceeds the threshold and to 0 otherwise, and keeps the alpha channel. *)
Theorem fixed_threshold_pixel (thr : Q) (w h : nat) (d : list Z) (x y k : nat)
  (Hx : x < w) (Hy : y < h) (Hk : k < 4) (Hlen : length d = 4 * (w * h)) :
  nth (Preprocess.pixel_index w x y + k) (Passes.fixed_threshold thr w h d) 0%Z =
  (if (k <? 3)%nat then
     if negb (Qle_bool (Preprocess.avg d (Preprocess.pixel_index w x y)) thr) then 255 else 0
   else nth (Preprocess.pixel_index w x y + k) d 0)%Z.
Proof.
  unfold Passes.fixed_threshold. rewrite PassFacts.run_pixel by assumption.
  destruct (k <? 3); [|reflexivity]. unfold Passes.fixed_value at 1.
  set (pre := fold_left _ (Preprocess.before w x y) d).
  assert (E : Preprocess.avg pre (Preprocess.pixel_index w x y)
              = Preprocess.avg d (Preprocess.pixel_index w x y)).
  { unfold pre, Preprocess.avg, Preprocess.get.
    rewrite !PassFacts.fold_px_other; [reflexivity| | |];
      intros p Hp k' Hk' E;
      pose proof (PassFacts.before_disjoint w x y p 0 k' Hx Hp);
      pose proof (PassFacts.before_disjoint w x y p 1 k' Hx Hp);
      pose proof (PassFacts.before_disjoint w x y p 2 k' Hx Hp); lia. }
  rewrite E. reflexivity.
Qed.

(** X17: for a buffer of whole-number width and height (a canvas source, or an image that is not downscaled to a fractional side), the adaptive pass of [preprocessFoodLabel] averages over a non-empty window, writes each colour channel from the buffer as already rewritten for the earlier pixels, and keeps the alpha channel. *)
Theorem label_adaptive_pixel (w h : nat) (d : list Z) (x y k : nat)
  (Hx : x < w) (Hy : y < h) (Hk : k < 4) (Hlen : length d = 4 * (w * h)) :
  (0 < Passes.window_count (Passes.label_blockSize w h) w h x y)%nat /\
  nth (Preprocess.pixel_index w x y + k) (Passes.label_pass2 w h d) 0%Z =
  (if (k <? 3)%nat then
     let pre := fold_left (Passes.px_step (Passes.label_value w h) w) (Preprocess.before w x y) d in
     if negb (Qle_bool (Passes.label_mean w h pre x y - 7)
                       (Preprocess.avg pre (Preprocess.pixel_index w x y))) then 0 else 255
   else nth (Preprocess.pixel_index w x y + k) d 0)%Z.
Proof.
  split.
  - unfold Passes.window_count, Passes.window, Passes.label_blockSize.
    assert (11 <= Nat.max 11 (Nat.min w h / 15)) by lia.
    set (b := Nat.max 11 (Nat.min w h / 15)) in *.
    assert (0 < Nat.min h (y + b) - (y - b)) by lia.
    assert (0 < Nat.min w (x + b) - (x - b)) by lia. nia.
  - unfold Passes.label_pass2. rewrite PassFacts.run_pixel by assumption. reflexivity.
Qed.

(** X15: the chunked row loop of the preprocessing passes visits every row exactly once, in increasing order. *)
Theorem chunked_rows_in_order (height : nat) : Passes.rows height = List.seq 0 height.
Proof. unfold Passes.rows. rewrite PassFacts.chunk_rows_seq by lia. rewrite Nat.sub_0_r. reflexivity. Qed.

Module BestFacts.
Import FoodLabel.

Definition keyword_text (t : str) : bool :=
  found Regex.fl_i (Regex.lit "ingredients") t || found Regex.fl_gi keywordRegex t.

Lemma best_fold (l pre : list str) (acc : str) :
  (acc = [] \/ (In acc pre /\ keyword_text acc = true)) ->
  fold_left best_step l acc = [] \/
  (In (fold_left best_step l acc) (pre ++ l) /\ keyword_text (fold_left best_step l acc) = true).
Proof.
  revert pre acc. induction l as [|t l IH]; intros pre acc H; simpl.
  - rewrite app_nil_r. exact H.
  - replace (pre ++ t :: l) with ((pre ++ [t]) ++ l) by (rewrite <- app_assoc; reflexivity).
    apply IH. unfold best_step.
    destruct (found Regex.fl_i (Regex.lit "ingredients") t) eqn:F1; simpl.
    + right. split; [apply in_or_app; right; left; reflexivity|].
      unfold keyword_text. rewrite F1. reflexivity.
    + destruct (found Regex.fl_gi keywordRegex t) eqn:F2; simpl.
      * destruct (length acc <? length t).
        -- right. split; [apply in_or_app; right; left; reflexivity|].
           unfold keyword_text. rewrite F2, orb_true_r. reflexivity.
        -- destruct H as [H|[H1 H2]]; [left; exact H|right; split; [apply in_or_app; left|]; assumption].
      * destruct H as [H|[H1 H2]]; [left; exact H|right; split; [apply in_or_app; left|]; assumption].
Qed.

End BestFacts.

(** X8: the best text chosen in [performFoodLabelOCR] is either the empty string or one of the pass texts that matches [/ingredients/i] or the keyword regex. *)
Theorem best_text_from_passes (texts : list str) :
  FoodLabel.pick_best texts = [] \/
  (In (FoodLabel.pick_best texts) texts /\
   (FoodLabel.found Regex.fl_i (Regex.lit "ingredients") (FoodLabel.pick_best texts)
    || FoodLabel.found Regex.fl_gi FoodLabel.keywordRegex (FoodLabel.pick_best texts)) = true).
Proof.
  exact (BestFacts.best_fold texts [] [] (or_introl eq_refl)).
Qed.


Module MinimalFacts.

Lemma clean_basic_trimmed (t : str) : trim (Minimal.cleanBasicText t) = Minimal.cleanBasicText t.
Proof.
  unfold Minimal.cleanBasicText. destruct (negb (truthy t)); [reflexivity|].
  apply StrFacts.trim_idem.
Qed.

Lemma floor_half (n : nat) : Qfloor (Detect.qn n * (1 # 2)) = Z.of_nat (n / 2).
Proof.
  change (Qfloor (Detect.qn n * (1 # 2))) with (Z.of_nat n * 1 / 2)%Z.
  rewrite Z.mul_1_r, Nat2Z.inj_div. reflexivity.
Qed.

End MinimalFacts.

(** X18: [cleanBasicText] is not idempotent: on [a,b,c] the global replacement consumes [b] and misses the second comma. *)
Theorem basic_text_not_idempotent :
  ~ (forall t, Minimal.cleanBasicText (Minimal.cleanBasicText t) = Minimal.cleanBasicText t).
Proof. intro H. specialize (H (s2l "a,b,c")). vm_compute in H. discriminate H. Qed.

(** X19: on a text with no letter-comma-letter pair, [cleanBasicText] only trims. *)
Theorem clean_basic_without_pair (t : str)
  (H : Regex.match_ Regex.fl_gi Minimal.comma_re t = None) :
  Minimal.cleanBasicText t = trim t.
Proof.
  unfold Minimal.cleanBasicText. destruct t as [|c t']; [reflexivity|]. cbn [truthy negb].
  unfold Regex.replace. cbn [Nat.add length]. cbn [Regex.replace_loop].
  unfold Regex.match_ in H. rewrite H. reflexivity.
Qed.

(** X20: the effective [performFoodLabelOCR] returns the engine's result with its text passed through [cleanBasicText] and its confidence unchanged, so the text is trimmed. *)
Theorem basic_label_ocr_result (image : Type) (recognize : image -> outcome Fusion.result)
  (img : image) (r : Fusion.result)
  (H : Minimal.performFoodLabelOCR image recognize img = Ok r) :
  exists r0, recognize img = Ok r0 /\
    Fusion.text r = Minimal.cleanBasicText (Fusion.text r0) /\
    Fusion.confidence r = Fusion.confidence r0 /\
    trim (Fusion.text r) = Fusion.text r.
Proof.
  revert H. unfold Minimal.performFoodLabelOCR, Minimal.enhanceAndRecognizeText,
    Minimal.performBasicOCR, bind.
  destruct (recognize img) as [r0|e]; [|discriminate].
  intro H. injection H as <-. exists r0. cbn. repeat split.
  apply MinimalFacts.clean_basic_trimmed.
Qed.

(** X21: the effective [detectIngredientsSection] returns the full-width box starting at half the height with half the height; for an odd height the last row is left out. *)
Theorem minimal_section_box (nw w nh h : nat) :
  let b := Minimal.detectIngredientsSection nw w nh h in
  Detect.box_x b = 0%Q /\ Detect.box_width b = Detect.qn (Detect.or_nat nw w) /\
  Detect.box_y b = Detect.box_height b /\
  (Detect.box_y b + Detect.box_height b + Detect.qn (Detect.or_nat nh h mod 2)
     == Detect.qn (Detect.or_nat nh h))%Q.
Proof.
  cbv zeta. unfold Minimal.detectIngredientsSection. cbn [Detect.box_x Detect.box_y
    Detect.box_width Detect.box_height].
  repeat split. rewrite MinimalFacts.floor_half. unfold Detect.qn.
  rewrite <- !inject_Z_plus. apply inject_Z_injective.
  set (n := Detect.or_nat nh h).
  pose proof (Nat.div_mod n 2 ltac:(lia)). lia.
Qed.

(** X5: when the first declaration of [enhanceAndRecognizeText] (lines 533-632) returns a result, preprocessing succeeded, both passes ran, and the result's text is the normalisation ([postprocessText], then the effective [enhanceIngredientText], that is [cleanBasicText]) of the fused text of the passes, or of the best pass's text when fewer than two passes returned; that text is trimmed. *)
Theorem recognize_text_normalized (image : Type) (correctImageOrientation : image -> image)
  (preprocessImage : image -> outcome (list image))
  (performOCR : option image -> Orchestrator.options -> outcome Fusion.result)
  (img : image) (log log' : list (Orchestrator.call image)) (r : Fusion.result)
  (H : Orchestrator.enhanceAndRecognizeText image correctImageOrientation preprocessImage
         performOCR img log = (Ok r, log')) :
  exists processed results,
    preprocessImage (correctImageOrientation img) = Ok processed /\
    Orchestrator.run_passes image performOCR processed log = (Ok results, log') /\
    Fusion.text r =
      Orchestrator.normalize
        (if 1 <? length results then Fusion.combineOcrResults results
         else snd (fold_left Orchestrator.best_step results (0%Q, []))) /\
    trim (Fusion.text r) = Fusion.text r.
Proof.
  revert H.
  unfold Orchestrator.enhanceAndRecognizeText, Orchestrator.try_catch,
    Orchestrator.mbind, Orchestrator.lift, Orchestrator.ret.
  destruct (preprocessImage (correctImageOrientation img)) as [processed|e] eqn:Ep;
    cbv beta iota; [|discriminate].
  destruct (Orchestrator.run_passes image performOCR processed log) as [[results|e] s] eqn:Er;
    cbv beta iota; [|discriminate].
  destruct (fold_left Orchestrator.best_step results (0%Q, [])) as [bc bt] eqn:Eb.
  intro H. injection H as <- <-. exists processed, results.
  split; [reflexivity|]. split; [exact Er|]. split.
  - cbn [Fusion.text]. rewrite Eb. reflexivity.
  - cbn [Fusion.text]. unfold Orchestrator.normalize, Minimal.enhanceIngredientText.
    apply MinimalFacts.clean_basic_trimmed.
Qed.

Module ExtraSamples.

Definition scan_plain : Safety.data :=
  Safety.Build_data true (s2l "Looks fine.") None.

Definition fused : list Fusion.result :=
  [Samples.res "Water, salt" 80; Samples.res "sugar" 60].

Definition blank_label_engine (_ : option nat) (_ : list (string * string))
  : outcome Fusion.result :=
  Ok (Samples.res "" 1).

Definition label_prep (i : nat) : outcome (list nat) := Ok [i; S i; S (S i)].

Definition caller_options : PerformOCR.obj :=
  [("tessedit_pageseg_mode"%string, PerformOCR.VStr "7")].

Definition gluten_text (_ _ : nat) : outcome str := Ok (s2l "Contains GLUTEN").

Definition osd90 (_ _ : nat) : outcome (option Q) := Ok (Some 90%Q).



(** An engine reading a text whose comma has no following space. *)
Definition basic_engine (_ : nat) : outcome Fusion.result := Ok (Samples.res "Flour,salt " 88).

End ExtraSamples.

Lemma safety_gluten_free_has_disclaimer_witness :
  exists p, Safety.message (Safety.analyzeIngredientsForSafety ExtraSamples.scan_plain)
            = p ++ Safety.msg_cross.
Proof. apply safety_gluten_free_has_disclaimer. reflexivity. Defined.

Lemma safety_without_flags_witness :
  Safety.analyzeIngredientsForSafety ExtraSamples.scan_plain =
  {| Safety.is_gluten_free := true;
     Safety.message := s2l "Looks fine." ++ Safety.msg_cross;
     Safety.flagged_ingredients := None |}.
Proof. apply (safety_without_flags ExtraSamples.scan_plain). left. reflexivity. Defined.

Lemma fusion_keeps_all_words_witness :
  StrFacts.occurs (s2l "sugar") (toLowerCase (Fusion.combineOcrResults ExtraSamples.fused)).
Proof.
  apply (fusion_keeps_all_words ExtraSamples.fused (Samples.res "sugar" 60)).
  - right. left. reflexivity.
  - vm_compute. left. reflexivity.
Defined.

Lemma recognize_text_normalized_witness :
  exists processed results,
    Samples.prep 0 = Ok processed /\
    Orchestrator.run_passes nat Samples.engine processed [] =
      (Ok results, [(Some 0, Orchestrator.opts1); (Some 1, Orchestrator.opts2)]) /\
    Fusion.text (Samples.res "Ingredients: water" 90) =
      Orchestrator.normalize
        (if 1 <? length results then Fusion.combineOcrResults results
         else snd (fold_left Orchestrator.best_step results (0%Q, []))) /\
    trim (Fusion.text (Samples.res "Ingredients: water" 90)) =
      Fusion.text (Samples.res "Ingredients: water" 90).
Proof.
  apply (recognize_text_normalized nat (fun i => i) Samples.prep Samples.engine 0 []).
  vm_compute. reflexivity.
Defined.

Lemma food_label_ocr_no_text_witness :
  let r := {| FoodLabel.label_text := []; FoodLabel.label_confidence := Some 1%Q;
              FoodLabel.rawTexts := [[]; []; []] |} in
  FoodLabel.label_text r = [] /\ FoodLabel.rawTexts r <> [] /\
  forall t, In t (FoodLabel.rawTexts r) -> t = [].
Proof.
  apply (food_label_ocr_no_text nat (fun i => i) ExtraSamples.label_prep
           ExtraSamples.blank_label_engine 0).
  vm_compute. reflexivity.
Defined.

Lemma final_options_lookup_witness :
  PerformOCR.obj_get (PerformOCR.finalOptions ExtraSamples.caller_options) "logger"%string
    = Some PerformOCR.VLogger /\
  forall k, k <> "logger"%string ->
  PerformOCR.obj_get (PerformOCR.finalOptions ExtraSamples.caller_options) k =
  match PerformOCR.obj_get ExtraSamples.caller_options k with
  | Some v => Some v
  | None => PerformOCR.obj_get PerformOCR.defaultOptions k
  end.
Proof.
  apply final_options_lookup. repeat constructor. intros [].
Defined.

Lemma progress_percent_range_witness :
  (0 <= PerformOCR.percent (1 # 2) <= 100)%Z /\
  (50 <= PerformOCR.overallPercent (1 # 2) <= 80)%Z.
Proof. apply progress_percent_range. split; vm_compute; discriminate. Defined.

Lemma food_label_detection_witness :
  (forall e, ExtraSamples.gluten_text 100 100 = Throw e ->
     Detect.detectIfFoodLabel ExtraSamples.gluten_text 0 100 0 100 = false) /\
  (forall t u, ExtraSamples.gluten_text 100 100 = Ok t -> In (toLowerCase u) Detect.foodKeywords ->
     StrFacts.occurs u t -> Detect.detectIfFoodLabel ExtraSamples.gluten_text 0 100 0 100 = true).
Proof. apply (food_label_detection ExtraSamples.gluten_text 0 100 0 100 1%Q). reflexivity. Defined.

Lemma orientation_rotated_canvas_witness :
  ~ (90 == 0)%Q /\ 750 <= 1500 /\ 1500 <= 1500.
Proof.
  apply (orientation_rotated_canvas ExtraSamples.osd90 0 2000 0 1000).
  vm_compute. reflexivity.
Defined.


Lemma fixed_threshold_pixel_witness :
  nth (Preprocess.pixel_index 2 1 0 + 0) (Passes.fixed_threshold 150 2 1 Samples.buf) 0%Z =
  (if (0 <? 3)%nat then
     if negb (Qle_bool (Preprocess.avg Samples.buf (Preprocess.pixel_index 2 1 0)) 150)
     then 255 else 0
   else nth (Preprocess.pixel_index 2 1 0 + 0) Samples.buf 0)%Z.
Proof. apply fixed_threshold_pixel; try lia. reflexivity. Defined.

Lemma label_adaptive_pixel_witness :
  (0 < Passes.window_count (Passes.label_blockSize 2 1) 2 1 1 0)%nat /\
  nth (Preprocess.pixel_index 2 1 0 + 3) (Passes.label_pass2 2 1 Samples.buf) 0%Z =
  (if (3 <? 3)%nat then
     let pre := fold_left (Passes.px_step (Passes.label_value 2 1) 2) (Preprocess.before 2 1 0)
                  Samples.buf in
     if negb (Qle_bool (Passes.label_mean 2 1 pre 1 0 - 7)
                       (Preprocess.avg pre (Preprocess.pixel_index 2 1 0))) then 0 else 255
   else nth (Preprocess.pixel_index 2 1 0 + 3) Samples.buf 0)%Z.
Proof. apply label_adaptive_pixel; try lia. reflexivity. Defined.

Lemma clean_basic_without_pair_witness :
  Minimal.cleanBasicText (s2l " Wheat, salt ") = trim (s2l " Wheat, salt ").
Proof. apply clean_basic_without_pair. vm_compute. reflexivity. Defined.

Lemma basic_label_ocr_result_witness :
  exists r0, ExtraSamples.basic_engine 0 = Ok r0 /\
    s2l "Flour, salt" = Minimal.cleanBasicText (Fusion.text r0) /\
    88%Q = Fusion.confidence r0 /\
    trim (s2l "Flour, salt") = s2l "Flour, salt".
Proof.
  apply (basic_label_ocr_result nat ExtraSamples.basic_engine 0
           (Fusion.Build_result (s2l "Flour, salt") 88)).
  vm_compute. reflexivity.
Defined.
